(** * QueueCTL: a shallow embedding of the job queue and its checked properties

    The development follows the layout of the Python package:

    - [Job]          (job.py)            the job record, its dictionary form
                                         and its state-transition helpers;
    - [Database]     (database.py)       the [jobs] and [config] tables and the
                                         SQL statements the package issues;
    - [Config]       (config.py)         the typed accessor over [config];
    - [QueueManager] (queue_manager.py)  enqueue, claim, update, list, metrics
                                         and the dead-letter retry;
    - [Worker]       (worker.py)         interpretation of a subprocess result;
    - [Cli]          (cli.py)            the [enqueue] command.

    Python values are embedded with the types of the [jobs] table columns:
    integers as [Z], text as [string], [REAL] as [Q], a nullable column as an
    [option].  Time stamps stay ISO-8601 text, as the code stores and compares
    them.  What the code obtains from its surroundings (clock readings, fresh
    UUIDs, the outcome of a subprocess, the parse of a JSON argument) is an
    explicit argument of the embedded function. *)

From Stdlib Require Import ZArith QArith List String Ascii Bool Lia.
From Stdlib Require Import Sorted Permutation DecimalString OrdersEx.
From stdpp Require Import gmap strings.
Import ListNotations.

Open Scope string_scope.
Open Scope list_scope.
Open Scope Z_scope.

(** ** The Python runtime the package relies on *)

(** Exceptions that reach the callers modelled here. *)
Inductive exn :=
| IntegrityError
| ValueError
| TypeError
| OverflowError
| OSError.

Inductive result (A : Type) :=
| Ok (a : A)
| Raise (e : exn).
Arguments Ok {A} a.
Arguments Raise {A} e.

Definition bind {A B} (r : result A) (k : A -> result B) : result B :=
  match r with
  | Ok a => k a
  | Raise e => Raise e
  end.

Notation "'do' x <- r ; k" := (bind r (fun x => k))
  (at level 10, x name, r at level 100, k at level 200).

(** [datetime] values are counted in microseconds since the epoch, the
    resolution of Python's [datetime]; a [timedelta] is a difference of two. *)
Definition datetime := Z.

(** What [datetime.fromisoformat] returns: the instant read, and whether
    the text carried a UTC offset, which makes the value an aware one. *)
Record parsed := mkParsed {
  instant : datetime;
  aware : bool
}.

(** Library and system functions the package calls but does not define.
    [None] stands for the [ValueError] the Python function raises. *)
Class Runtime := {
  (** [datetime.isoformat()] *)
  isoformat : datetime -> string;
  (** [datetime.fromisoformat(s)] *)
  fromisoformat : string -> option parsed;
  (** [int(s)] on a string *)
  py_int : string -> option Z;
  (** the exception, if any, that opening and writing the file
      [log_dir / f"{job_id}.log"] raises: [OSError] for an id that names no
      file that can be created, [ValueError] for one with a null
      character *)
  log_file_error : string -> option exn
}.

(** [datetime.min] and [datetime.max]: the first microsecond of year 1 and
    the last of year 9999. *)
Definition datetime_min : datetime := -62135596800000000.
Definition datetime_max : datetime := 253402300799999999.

(** The largest number of days a [timedelta] holds, either way. *)
Definition timedelta_max_days : Z := 999999999.

(** [timedelta(seconds=n)] for an integer [n], in microseconds. *)
Definition timedelta_seconds (n : Z) : result Z :=
  let days := n * 1000000 / 86400000000 in
  if (- timedelta_max_days <=? days) && (days <=? timedelta_max_days)
  then Ok (n * 1000000)
  else Raise OverflowError.

(** [t + d] for a [datetime] and a [timedelta]. *)
Definition datetime_add (t : datetime) (d : Z) : result datetime :=
  if (datetime_min <=? t + d) && (t + d <=? datetime_max)
  then Ok (t + d)
  else Raise OverflowError.

(** [b - a] for two parsed datetimes: a naive and an aware value do not
    subtract. *)
Definition datetime_sub (b a : parsed) : result Z :=
  if Bool.eqb (aware b) (aware a) then Ok (instant b - instant a)
  else Raise TypeError.

(** [timedelta.total_seconds()] *)
Definition total_seconds (d : Z) : Q := d # 1000000.

(** [str(n)] on an integer *)
Definition py_str (n : Z) : string := NilZero.string_of_int (Z.to_int n).

(** Truth value of a string: only the empty string is false. *)
Definition truthy (s : string) : bool := negb (s =? "")%string.

(** Truth value of an optional string: [None] and [""] are false. *)
Definition truthy_opt (o : option string) : bool :=
  match o with
  | Some s => truthy s
  | None => false
  end.

(** [x or y] where [x] is an optional string and [y] a string. *)
Definition or_else (x : option string) (y : string) : string :=
  match x with
  | Some s => if truthy s then s else y
  | None => y
  end.

(** [s[:n]] *)
Fixpoint take_chars (n : nat) (s : string) : string :=
  match n, s with
  | S n', String c s' => String c (take_chars n' s')
  | _, _ => EmptyString
  end.

(** The integers SQLite stores: [sqlite3] raises [OverflowError] when it is
    asked to bind a Python integer outside the signed 64-bit range. *)
Definition int64 (n : Z) : bool :=
  (-9223372036854775808 <=? n) && (n <=? 9223372036854775807).

(** What a constructor call may draw from its surroundings: the value of
    [str(uuid.uuid4())] and the two readings of [datetime.utcnow()]. *)
Record Fresh := mkFresh {
  uuid4 : string;
  utcnow_created : datetime;
  utcnow_updated : datetime
}.

(** ** job.py *)

Module Job.

(** [Job.STATES].  The [state] column is free text; the embedding covers
    the jobs whose state is one of these five names, the only ones the
    package itself ever assigns. *)
Inductive State := pending | processing | completed | failed | dead.

Definition State_eqb (a b : State) : bool :=
  match a, b with
  | pending, pending | processing, processing | completed, completed
  | failed, failed | dead, dead => true
  | _, _ => false
  end.

Record t := mk {
  id : string;
  command : option string;
  state : State;
  attempts : Z;
  max_retries : Z;
  created_at : string;
  updated_at : string;
  next_retry_at : option string;
  error_message : option string;
  output : option string;
  priority : Z;
  timeout : Z;
  run_at : option string;
  started_at : option string;
  completed_at : option string;
  execution_time : option Q
}.

(** A dictionary restricted to the sixteen keys the package reads.  A key is
    absent ([None]) or bound to a value of the column's type; for a nullable
    column that value may itself be Python's [None]. *)
Record dict := mkDict {
  k_id : option (option string);
  k_command : option (option string);
  k_state : option State;
  k_attempts : option Z;
  k_max_retries : option Z;
  k_created_at : option (option string);
  k_updated_at : option (option string);
  k_next_retry_at : option (option string);
  k_error_message : option (option string);
  k_output : option (option string);
  k_priority : option Z;
  k_timeout : option Z;
  k_run_at : option (option string);
  k_started_at : option (option string);
  k_completed_at : option (option string);
  k_execution_time : option (option Q)
}.

(** [data.get(key)]: an absent key reads as [None]. *)
Definition get {A} (v : option (option A)) : option A :=
  match v with
  | Some x => x
  | None => None
  end.

(** [data.get(key, d)] *)
Definition get_default {A} (v : option A) (d : A) : A :=
  match v with
  | Some x => x
  | None => d
  end.

(** Attribute assignment, [self.f = v], one function per assigned field. *)
Definition set_state (v : State) (j : t) : t :=
  mk (id j) (command j) v (attempts j) (max_retries j) (created_at j)
     (updated_at j) (next_retry_at j) (error_message j) (output j)
     (priority j) (timeout j) (run_at j) (started_at j) (completed_at j)
     (execution_time j).

Definition set_attempts (v : Z) (j : t) : t :=
  mk (id j) (command j) (state j) v (max_retries j) (created_at j)
     (updated_at j) (next_retry_at j) (error_message j) (output j)
     (priority j) (timeout j) (run_at j) (started_at j) (completed_at j)
     (execution_time j).

Definition set_updated_at (v : string) (j : t) : t :=
  mk (id j) (command j) (state j) (attempts j) (max_retries j)
     (created_at j) v (next_retry_at j) (error_message j) (output j)
     (priority j) (timeout j) (run_at j) (started_at j) (completed_at j)
     (execution_time j).

Definition set_next_retry_at (v : option string) (j : t) : t :=
  mk (id j) (command j) (state j) (attempts j) (max_retries j)
     (created_at j) (updated_at j) v (error_message j) (output j)
     (priority j) (timeout j) (run_at j) (started_at j) (completed_at j)
     (execution_time j).

Definition set_error_message (v : option string) (j : t) : t :=
  mk (id j) (command j) (state j) (attempts j) (max_retries j)
     (created_at j) (updated_at j) (next_retry_at j) v (output j)
     (priority j) (timeout j) (run_at j) (started_at j) (completed_at j)
     (execution_time j).

Definition set_output (v : option string) (j : t) : t :=
  mk (id j) (command j) (state j) (attempts j) (max_retries j)
     (created_at j) (updated_at j) (next_retry_at j) (error_message j) v
     (priority j) (timeout j) (run_at j) (started_at j) (completed_at j)
     (execution_time j).

Definition set_started_at (v : option string) (j : t) : t :=
  mk (id j) (command j) (state j) (attempts j) (max_retries j)
     (created_at j) (updated_at j) (next_retry_at j) (error_message j)
     (output j) (priority j) (timeout j) (run_at j) v (completed_at j)
     (execution_time j).

Definition set_completed_at (v : option string) (j : t) : t :=
  mk (id j) (command j) (state j) (attempts j) (max_retries j)
     (created_at j) (updated_at j) (next_retry_at j) (error_message j)
     (output j) (priority j) (timeout j) (run_at j) (started_at j) v
     (execution_time j).

Definition set_execution_time (v : option Q) (j : t) : t :=
  mk (id j) (command j) (state j) (attempts j) (max_retries j)
     (created_at j) (updated_at j) (next_retry_at j) (error_message j)
     (output j) (priority j) (timeout j) (run_at j) (started_at j)
     (completed_at j) v.

Section WithRuntime.
Context {rt : Runtime}.

(** [Job.__init__] *)
Definition __init__ (env : Fresh)
    (id command : option string) (state : State) (attempts max_retries : Z)
    (created_at updated_at next_retry_at error_message output : option string)
    (priority timeout : Z) (run_at started_at completed_at : option string)
    (execution_time : option Q) : t :=
  {| Job.id := or_else id (uuid4 env);
     Job.command := command;
     Job.state := state;
     Job.attempts := attempts;
     Job.max_retries := max_retries;
     Job.created_at := or_else created_at (isoformat (utcnow_created env));
     Job.updated_at := or_else updated_at (isoformat (utcnow_updated env));
     Job.next_retry_at := next_retry_at;
     Job.error_message := error_message;
     Job.output := output;
     Job.priority := priority;
     Job.timeout := timeout;
     Job.run_at := run_at;
     Job.started_at := started_at;
     Job.completed_at := completed_at;
     Job.execution_time := execution_time |}.

(** [Job.from_dict] *)
Definition from_dict (env : Fresh) (data : dict) : t :=
  __init__ env
    (get (k_id data))
    (get (k_command data))
    (get_default (k_state data) pending)
    (get_default (k_attempts data) 0)
    (get_default (k_max_retries data) 3)
    (get (k_created_at data))
    (get (k_updated_at data))
    (get (k_next_retry_at data))
    (get (k_error_message data))
    (get (k_output data))
    (get_default (k_priority data) 0)
    (get_default (k_timeout data) 300)
    (get (k_run_at data))
    (get (k_started_at data))
    (get (k_completed_at data))
    (get (k_execution_time data)).

(** [Job.from_db_row]: every column of the row is handed to the
    constructor.  A row of the [jobs] table has all sixteen columns, so
    [safe_get] never falls back to its default. *)
Definition from_db_row (env : Fresh) (row : t) : t :=
  __init__ env
    (Some (id row)) (command row) (state row) (attempts row)
    (max_retries row) (Some (created_at row)) (Some (updated_at row))
    (next_retry_at row) (error_message row) (output row)
    (priority row) (timeout row) (run_at row)
    (started_at row) (completed_at row) (execution_time row).

(** [Job.to_dict] *)
Definition to_dict (self : t) : dict :=
  {| k_id := Some (Some (id self));
     k_command := Some (command self);
     k_state := Some (state self);
     k_attempts := Some (attempts self);
     k_max_retries := Some (max_retries self);
     k_created_at := Some (Some (created_at self));
     k_updated_at := Some (Some (updated_at self));
     k_next_retry_at := Some (next_retry_at self);
     k_error_message := Some (error_message self);
     k_output := Some (output self);
     k_priority := Some (priority self);
     k_timeout := Some (timeout self);
     k_run_at := Some (run_at self);
     k_started_at := Some (started_at self);
     k_completed_at := Some (completed_at self);
     k_execution_time := Some (execution_time self) |}.

(** [Job.calculate_retry_delay]: [base ** self.attempts].  The power is
    the integer one for a non-negative [attempts], which is what the
    schema stores; a negative exponent is outside this model.  Integers are
    unbounded here as in Python; a power too large for the machine's memory
    is outside this model. *)
Definition calculate_retry_delay (self : t) (base : Z) : Z :=
  base ^ attempts self.

(** [Job.should_retry] *)
Definition should_retry (self : t) : bool :=
  attempts self <? max_retries self.

(** [Job.is_ready_to_run], with [now] the reading of the clock. *)
Definition is_ready_to_run (now : datetime) (self : t) : bool :=
  if negb (truthy_opt (run_at self)) then true
  else (or_else (run_at self) "" <=? isoformat now)%string.

(** [Job.mark_for_retry].  The clock is read twice: [now_u] for
    [updated_at], [now_r] for the retry time.  A delay no [timedelta] holds,
    or a retry time past [datetime.max], raises [OverflowError]; the caller
    then loses the job object with the exception. *)
Definition mark_for_retry (now_u now_r : datetime)
    (error_msg : string) (backoff_base : Z) (self : t) : result t :=
  let self := set_attempts (attempts self + 1) self in
  let self := set_error_message (Some error_msg) self in
  let self := set_updated_at (isoformat now_u) self in
  if should_retry self then
    let self := set_state failed self in
    let delay_seconds := calculate_retry_delay self backoff_base in
    do delta <- timedelta_seconds delay_seconds;
    do retry_at <- datetime_add now_r delta;
    Ok (set_next_retry_at (Some (isoformat retry_at)) self)
  else
    let self := set_state dead self in
    Ok (set_next_retry_at None self).

(** [Job.mark_processing] *)
Definition mark_processing (now : datetime) (self : t) : t :=
  let self := set_state processing self in
  let self := set_started_at (Some (isoformat now)) self in
  set_updated_at (isoformat now) self.

(** [Job.mark_completed].  [fromisoformat] raises [ValueError] on text it
    cannot read, and the subtraction raises [TypeError] when one stamp is
    aware and the other naive; no caller keeps the job when an exception
    passes, so the fields assigned before it are not returned. *)
Definition mark_completed (now : datetime) (output : option string)
    (self : t) : result t :=
  let self := set_state completed self in
  let self := set_output output self in
  let self := set_completed_at (Some (isoformat now)) self in
  let self := set_updated_at (isoformat now) self in
  match started_at self with
  | Some s =>
      if truthy s then
        match fromisoformat s, fromisoformat (isoformat now) with
        | Some start, Some end_ =>
            do elapsed <- datetime_sub end_ start;
            Ok (set_execution_time (Some (total_seconds elapsed)) self)
        | _, _ => Raise ValueError
        end
      else Ok self
  | None => Ok self
  end.

End WithRuntime.
End Job.

(** ** database.py *)

Module Database.

(** The two tables the modelled operations touch.  [jobs] lists the rows in
    rowid order, the order in which they were inserted: the package never
    deletes a job, and [id] is a [TEXT] key, so SQLite numbers the rows as
    they arrive.  [config] is keyed by its primary key. *)
Record t := mk {
  jobs : list Job.t;
  config : gmap string string
}.

Definition with_jobs (rows : list Job.t) (db : t) : t :=
  mk rows (config db).

Definition with_config (c : gmap string string) (db : t) : t :=
  mk (jobs db) c.

(** [ORDER BY]: the rows sorted by [le], rows with equal keys staying in
    scan order.  SQLite gives no promise on ties; for a scan of [jobs] by
    rowid with a sort step, equal keys come out in rowid order. *)
Fixpoint insert_by {A} (le : A -> A -> bool) (x : A) (l : list A) : list A :=
  match l with
  | [] => [x]
  | y :: l' => if le x y then x :: y :: l' else y :: insert_by le x l'
  end.

Fixpoint order_by {A} (le : A -> A -> bool) (l : list A) : list A :=
  match l with
  | [] => []
  | x :: l' => insert_by le x (order_by le l')
  end.

(** [cursor.fetchone()] *)
Definition fetch_one {A} (rows : list A) : option A :=
  match rows with
  | [] => None
  | r :: _ => Some r
  end.

(** Sort keys.  Text compares byte by byte ([BINARY] collation). *)
Definition le_priority_desc_created_asc (a b : Job.t) : bool :=
  (Job.priority b <? Job.priority a)
  || ((Job.priority a =? Job.priority b)
      && (Job.created_at a <=? Job.created_at b)%string).

Definition le_priority_desc_created_desc (a b : Job.t) : bool :=
  (Job.priority b <? Job.priority a)
  || ((Job.priority a =? Job.priority b)
      && (Job.created_at b <=? Job.created_at a)%string).

Definition le_created_desc (a b : Job.t) : bool :=
  (Job.created_at b <=? Job.created_at a)%string.

(** [WHERE id=?] *)
Definition has_id (job_id : string) (r : Job.t) : bool :=
  (Job.id r =? job_id)%string.

(** [x <= ?] on a nullable text column, inside [x IS NULL OR x <= ?]. *)
Definition null_or_le (x : option string) (bound : string) : bool :=
  match x with
  | None => true
  | Some s => (s <=? bound)%string
  end.

(** Whether the integer fields of a job can be bound as parameters of a
    statement. *)
Definition bindable (job : Job.t) : bool :=
  int64 (Job.attempts job) && int64 (Job.max_retries job)
  && int64 (Job.priority job) && int64 (Job.timeout job).

(** [INSERT INTO jobs ... VALUES (...)]: the parameters are bound first;
    then the primary key must be new and [command], the one [NOT NULL]
    column that can hold Python's [None], must be set. *)
Definition insert_job (job : Job.t) (db : t) : result t :=
  if negb (bindable job) then Raise OverflowError
  else if existsb (has_id (Job.id job)) (jobs db) then Raise IntegrityError
  else
    match Job.command job with
    | None => Raise IntegrityError
    | Some _ => Ok (with_jobs (jobs db ++ [job]) db)
    end.

(** The [SET] list of the [UPDATE] in [update_job]: every column but [id]
    and [created_at]. *)
Definition set_columns (job row : Job.t) : Job.t :=
  Job.mk (Job.id row) (Job.command job) (Job.state job) (Job.attempts job)
    (Job.max_retries job) (Job.created_at row) (Job.updated_at job)
    (Job.next_retry_at job) (Job.error_message job) (Job.output job)
    (Job.priority job) (Job.timeout job) (Job.run_at job)
    (Job.started_at job) (Job.completed_at job) (Job.execution_time job).

(** [UPDATE jobs SET ... WHERE id=?]: the parameters are bound first,
    whether or not a row matches; the [NOT NULL] constraint is only
    examined on rows that are written. *)
Definition update_job_row (job : Job.t) (db : t) : result t :=
  if negb (bindable job) then Raise OverflowError
  else if existsb (has_id (Job.id job)) (jobs db) then
    match Job.command job with
    | None => Raise IntegrityError
    | Some _ =>
        Ok (with_jobs
              (map (fun row => if has_id (Job.id job) row
                               then set_columns job row else row)
                   (jobs db))
              db)
    end
  else Ok db.

End Database.

(** ** config.py *)

Module Config.

(** [Config.DEFAULTS], in the order of the dictionary literal. *)
Definition DEFAULTS : list (string * string) :=
  [("max_retries", "3"); ("backoff_base", "2");
   ("worker_poll_interval", "2"); ("job_timeout", "300")].

Definition DEFAULTS_get (key : string) : option string :=
  match find (fun kv => (fst kv =? key)%string) DEFAULTS with
  | Some kv => Some (snd kv)
  | None => None
  end.

(** [Config._init_defaults], run by the constructor. *)
Definition _init_defaults (db : Database.t) : Database.t :=
  fold_left
    (fun db kv =>
       match Database.config db !! fst kv with
       | Some _ => db
       | None =>
           Database.with_config (<[fst kv := snd kv]> (Database.config db)) db
       end)
    DEFAULTS db.

(** What [Config.get] hands back: the stored text, the caller's integer
    default, or Python's [None]. *)
Inductive value :=
| Text (s : string)
| Int (n : Z)
| NoValue.

(** [Config.get(key, default)], the default being an integer or absent. *)
Definition get (key : string) (default : option Z) (db : Database.t) : value :=
  match Database.config db !! key with
  | Some v => Text v
  | None =>
      match default with
      | Some n =>
          if n =? 0 then
            match DEFAULTS_get key with Some s => Text s | None => NoValue end
          else Int n
      | None =>
          match DEFAULTS_get key with Some s => Text s | None => NoValue end
      end
  end.

(** [int(v)] on what [get] returned. *)
Definition to_int {rt : Runtime} (v : value) : result Z :=
  match v with
  | Text s =>
      match py_int s with
      | Some n => Ok n
      | None => Raise ValueError
      end
  | Int n => Ok n
  | NoValue => Raise TypeError
  end.

(** [Config.set(key, value)], the value being text as the command line
    passes it, so that [str(value)] is the value itself.  An existing row is
    updated, a missing one inserted. *)
Definition set (key value : string) (db : Database.t) : Database.t :=
  match Database.config db !! key with
  | Some _ =>
      Database.with_config (<[key := value]> (Database.config db)) db
  | None =>
      Database.with_config (<[key := value]> (Database.config db)) db
  end.

(** [Config.get_all] *)
Definition get_all (db : Database.t) : gmap string string :=
  Database.config db.

End Config.

(** ** queue_manager.py *)

Module QueueManager.

(** What [get_metrics] returns.  The [jobs_last_24h] entry, computed by
    SQLite's own [datetime()], is left out of the embedding. *)
Record metrics := mkMetrics {
  avg_execution_time : Q;
  success_rate : Q;
  priority_dist : gmap Z nat
}.

Definition nl : string := String (ascii_of_nat 10) EmptyString.

(** [SUM(x)] and [AVG(x)] over the non-null values of a column. *)
Definition sql_sum (xs : list Q) : Q := fold_right Qplus 0%Q xs.

Definition sql_avg (xs : list Q) : option Q :=
  match xs with
  | [] => None
  | _ :: _ => Some (sql_sum xs / inject_Z (Z.of_nat (length xs)))%Q
  end.

(** [SELECT COUNT( * ) FROM jobs WHERE ...] *)
Definition sql_count (where_ : Job.t -> bool) (db : Database.t) : Z :=
  Z.of_nat (length (List.filter where_ (Database.jobs db))).

Definition is_state (s : Job.State) (r : Job.t) : bool :=
  Job.State_eqb (Job.state r) s.

(** The [WHERE] clause of the claim query. *)
Definition claimable (now : string) (r : Job.t) : bool :=
  (is_state Job.pending r || is_state Job.failed r)
  && Database.null_or_le (Job.next_retry_at r) now
  && Database.null_or_le (Job.run_at r) now.

Section WithRuntime.
Context {rt : Runtime}.

(** [QueueManager.enqueue] *)
Definition enqueue (job : Job.t) (db : Database.t)
    : result (Job.t * Database.t) :=
  do db' <- Database.insert_job job db;
  Ok (job, db').

(** [QueueManager.update_job] *)
Definition update_job (job : Job.t) (db : Database.t) : result Database.t :=
  Database.update_job_row job db.

(** The [SELECT] of [get_next_job], before [LIMIT 1]. *)
Definition next_job_candidates (now : string) (db : Database.t)
    : list Job.t :=
  Database.order_by Database.le_priority_desc_created_asc
    (List.filter (claimable now) (Database.jobs db)).

(** [QueueManager.get_next_job].  [now] is the clock reading compared
    with the stored stamps, [now_p] the later one [mark_processing]
    takes.  An exception leaves the database as it was. *)
Definition get_next_job (env : Fresh) (now now_p : datetime)
    (db : Database.t) : result (option Job.t * Database.t) :=
  match Database.fetch_one (next_job_candidates (isoformat now) db) with
  | Some row =>
      let job := Job.from_db_row env row in
      let job := Job.mark_processing now_p job in
      do db' <- update_job job db;
      Ok (Some job, db')
  | None => Ok (None, db)
  end.

(** [QueueManager.save_job_output].  The log directory is a map from the
    job id that names the file to the file's content.  When the file cannot
    be written the exception passes to the caller; what a failed write
    leaves on disk is not modelled. *)
Definition save_job_output (now : datetime) (job_id stdout stderr : string)
    (files : gmap string string) : result (gmap string string) :=
  match log_file_error job_id with
  | None =>
      Ok (<[job_id :=
              "=== Job Output Log ===" +:+ nl
              +:+ "Job ID: " +:+ job_id +:+ nl
              +:+ "Timestamp: " +:+ isoformat now +:+ nl +:+ nl
              +:+ "--- STDOUT ---" +:+ nl +:+ stdout +:+ nl +:+ nl
              +:+ "--- STDERR ---" +:+ nl +:+ stderr +:+ nl]> files)
  | Some e => Raise e
  end.

(** [QueueManager.get_job] *)
Definition get_job (env : Fresh) (job_id : string) (db : Database.t)
    : option Job.t :=
  match Database.fetch_one
          (List.filter (Database.has_id job_id) (Database.jobs db)) with
  | Some row => Some (Job.from_db_row env row)
  | None => None
  end.

(** [QueueManager.list_jobs].  A state name is never the empty string,
    so [if state] asks whether the filter was given.  A priority filter is
    bound as a parameter of the query, which raises [OverflowError] outside
    the 64-bit range.  Each returned row goes through the constructor, with
    its own surroundings [envs i]. *)
Definition list_jobs (envs : nat -> Fresh)
    (state : option Job.State) (priority : option Z) (db : Database.t)
    : result (list Job.t) :=
  do rows <-
    match state, priority with
    | Some s, Some p =>
        if int64 p then
          Ok (Database.order_by Database.le_priority_desc_created_desc
                (List.filter
                   (fun r => is_state s r && (Job.priority r =? p))
                   (Database.jobs db)))
        else Raise OverflowError
    | Some s, None =>
        Ok (Database.order_by Database.le_priority_desc_created_desc
              (List.filter (is_state s) (Database.jobs db)))
    | None, Some p =>
        if int64 p then
          Ok (Database.order_by Database.le_created_desc
                (List.filter (fun r => Job.priority r =? p)
                   (Database.jobs db)))
        else Raise OverflowError
    | None, None =>
        Ok (Database.order_by Database.le_priority_desc_created_desc
              (Database.jobs db))
    end;
  Ok (imap (fun i row => Job.from_db_row (envs i) row) rows).

(** [QueueManager.get_stats]: the count for each of [Job.STATES]. *)
Definition get_stats (db : Database.t) : Job.State -> Z :=
  fun s => sql_count (is_state s) db.

(** [QueueManager.get_metrics].  A zero average is a false value in
    Python and is replaced by the integer [0]. *)
Definition get_metrics (db : Database.t) : metrics :=
  let avg_time :=
    sql_avg (omap Job.execution_time (Database.jobs db)) in
  let total := sql_count (fun _ => true) db in
  let completed := sql_count (is_state Job.completed) db in
  {| avg_execution_time :=
       match avg_time with
       | Some a => if Qeq_bool a 0 then 0%Q else a
       | None => 0%Q
       end;
     success_rate :=
       if total >? 0
       then (inject_Z completed / inject_Z total * 100)%Q
       else 0%Q;
     priority_dist :=
       fold_right
         (fun r m =>
            <[Job.priority r := S (default O (m !! Job.priority r))]> m)
         ∅ (Database.jobs db) |}.

(** [QueueManager.list_dlq] *)
Definition list_dlq (envs : nat -> Fresh) (db : Database.t)
    : result (list Job.t) :=
  list_jobs envs (Some Job.dead) None db.

(** [QueueManager.retry_dlq_job].  A [Job] object is always a true value,
    so [not job] asks whether [get_job] found a row. *)
Definition retry_dlq_job (env : Fresh) (now : datetime) (job_id : string)
    (db : Database.t) : result (bool * Database.t) :=
  match get_job env job_id db with
  | None => Ok (false, db)
  | Some job =>
      if negb (Job.State_eqb (Job.state job) Job.dead) then Ok (false, db)
      else
        let job := Job.set_state Job.pending job in
        let job := Job.set_attempts 0 job in
        let job := Job.set_next_retry_at None job in
        let job := Job.set_error_message None job in
        let job := Job.set_updated_at (isoformat now) job in
        do db' <- update_job job db;
        Ok (true, db')
  end.

End WithRuntime.
End QueueManager.

(** ** worker.py *)

Module Worker.

(** How [subprocess.run] ended: it returned, with the exit code and the
    two captured streams decoded as text; the timeout expired; another
    exception was raised, as when the command cannot be spawned; or the
    process exited but a captured stream is not text in the expected
    encoding, which raises [UnicodeDecodeError] whatever the exit code. *)
Inductive run_outcome :=
| Exited (returncode : Z) (stdout stderr : string)
| TimeoutExpired
| OtherException (message : string)
| UndecodableOutput (returncode : Z) (message : string).

(** The dictionary [execute_command] returns. *)
Record cmd_result := mkResult {
  success : bool;
  output : string;
  error : string;
  return_code : Z
}.

(** [Worker.execute_command] *)
Definition execute_command (timeout : Z) (o : run_outcome) : cmd_result :=
  match o with
  | Exited returncode stdout stderr =>
      {| success := returncode =? 0;
         output := stdout;
         error := stderr;
         return_code := returncode |}
  | TimeoutExpired =>
      {| success := false;
         output := "";
         error := "Command timed out after " +:+ py_str timeout +:+ " seconds";
         return_code := -1 |}
  | OtherException message =>
      {| success := false;
         output := "";
         error := message;
         return_code := -1 |}
  | UndecodableOutput _ message =>
      {| success := false;
         output := "";
         error := message;
         return_code := -1 |}
  end.

(** The readings of the clocks one [process_job] call takes, in program
    order: [time.time()] before and after the subprocess, then
    [datetime.utcnow()] for the log header and for the transition. *)
Record clocks := mkClocks {
  time_start : Q;
  time_end : Q;
  utcnow_log : datetime;
  utcnow_done : datetime;
  utcnow_retry : datetime
}.

Section WithRuntime.
Context {rt : Runtime}.

(** The branch of [process_job] on [result['success']]: the transition
    applied to the job object before it is written back.  [db] is read
    for the [backoff_base] setting only. *)
Definition apply_result (clk : clocks) (res : cmd_result)
    (db : Database.t) (job : Job.t) : result Job.t :=
  let execution_time := (time_end clk - time_start clk)%Q in
  if success res then
    do job <- Job.mark_completed (utcnow_done clk)
                (Some (take_chars 500 (output res))) job;
    Ok (Job.set_execution_time (Some execution_time) job)
  else
    let error_msg :=
      if truthy (error res) then error res
      else "Exit code: " +:+ py_str (return_code res) in
    do backoff_base <- Config.to_int (Config.get "backoff_base" (Some 2) db);
    Job.mark_for_retry (utcnow_done clk) (utcnow_retry clk)
      error_msg backoff_base job.

(** [Worker.process_job], [o] being how the subprocess ended.  The log
    file is written first; when that raises, the transition and the update
    are not reached. *)
Definition process_job (clk : clocks) (o : run_outcome) (job : Job.t)
    (files : gmap string string) (db : Database.t)
    : gmap string string * result (Job.t * Database.t) :=
  let res := execute_command (Job.timeout job) o in
  match QueueManager.save_job_output (utcnow_log clk) (Job.id job)
          (output res) (error res) files with
  | Raise e => (files, Raise e)
  | Ok files' =>
      (files',
       do job <- apply_result clk res db job;
       do db' <- QueueManager.update_job job db;
       Ok (job, db'))
  end.

(** One turn of the loop in [Worker.run]: claim, then process.  The loop
    catches every exception, so a failed turn leaves the state where the
    exception found it. *)
Definition run_iteration (env : Fresh) (now now_p : datetime)
    (clk : clocks) (o : run_outcome)
    (files : gmap string string) (db : Database.t)
    : gmap string string * Database.t :=
  match QueueManager.get_next_job env now now_p db with
  | Ok (Some job, db1) =>
      match process_job clk o job files db1 with
      | (files', Ok (_, db2)) => (files', db2)
      | (files', Raise _) => (files', db1)
      end
  | Ok (None, _) | Raise _ => (files, db)
  end.

End WithRuntime.
End Worker.

(** ** cli.py *)

Module Cli.

(** What [json.loads] makes of the positional argument.  Job descriptions
    are JSON objects whose members have the types of the job's fields. *)
Inductive json :=
| JSONDecodeError
| Object (data : Job.dict).

(** What the command reports. *)
Inductive report :=
| Enqueued (job : Job.t)
| ErrorInvalidJSON
| ErrorMustProvide
| ErrorCommandRequired
| ErrorException (e : exn).

Definition empty_dict : Job.dict :=
  Job.mkDict None None None None None None None None
             None None None None None None None None.

(** The dictionary built from the command-line options. *)
Definition options_dict (command : string) (job_id : option string)
    (max_retries : option Z) (priority timeout : Z) (run_at : option string)
    : Job.dict :=
  {| Job.k_id := if truthy_opt job_id then Some job_id else None;
     Job.k_command := Some (Some command);
     Job.k_state := None;
     Job.k_attempts := None;
     Job.k_max_retries := max_retries;
     Job.k_created_at := None;
     Job.k_updated_at := None;
     Job.k_next_retry_at := None;
     Job.k_error_message := None;
     Job.k_output := None;
     Job.k_priority := if priority =? 0 then None else Some priority;
     Job.k_timeout := if timeout =? 300 then None else Some timeout;
     Job.k_run_at := if truthy_opt run_at then Some run_at else None;
     Job.k_started_at := None;
     Job.k_completed_at := None;
     Job.k_execution_time := None |}.

(** [data['max_retries'] = v] *)
Definition set_max_retries (v : Z) (d : Job.dict) : Job.dict :=
  Job.mkDict (Job.k_id d) (Job.k_command d) (Job.k_state d)
    (Job.k_attempts d) (Some v) (Job.k_created_at d) (Job.k_updated_at d)
    (Job.k_next_retry_at d) (Job.k_error_message d) (Job.k_output d)
    (Job.k_priority d) (Job.k_timeout d) (Job.k_run_at d)
    (Job.k_started_at d) (Job.k_completed_at d) (Job.k_execution_time d).

Section WithRuntime.
Context {rt : Runtime}.

(** The part of [enqueue] that follows the checks on its arguments:
    from [config = Config(DB_PATH)] to [queue.enqueue(job)]. *)
Definition enqueue_data (env : Fresh) (data : Job.dict) (db : Database.t)
    : report * Database.t :=
  let db := Config._init_defaults db in
  let filled :=
    match Job.k_max_retries data with
    | Some _ => Ok data
    | None =>
        do n <- Config.to_int (Config.get "max_retries" (Some 3) db);
        Ok (set_max_retries n data)
    end in
  match filled with
  | Raise e => (ErrorException e, db)
  | Ok data =>
      let job := Job.from_dict env data in
      match QueueManager.enqueue job db with
      | Ok (job, db') => (Enqueued job, db')
      | Raise e => (ErrorException e, db)
      end
  end.

(** The [enqueue] command.  [job_data] is [None] when the positional
    argument is absent or empty, and otherwise what [json.loads] makes of
    it; the options arrive as click passes them. *)
Definition enqueue (env : Fresh) (job_data : option json)
    (command job_id : option string) (max_retries : option Z)
    (priority timeout : Z) (run_at : option string) (db : Database.t)
    : report * Database.t :=
  let parsed :=
    match job_data with
    | Some JSONDecodeError => inl ErrorInvalidJSON
    | Some (Object data) => inr data
    | None =>
        match command with
        | Some c =>
            if truthy c
            then inr (options_dict c job_id max_retries priority timeout
                        run_at)
            else inl ErrorMustProvide
        | None => inl ErrorMustProvide
        end
    end in
  match parsed with
  | inl r => (r, db)
  | inr data =>
      match Job.k_command data with
      | None => (ErrorCommandRequired, db)
      | Some _ => enqueue_data env data db
      end
  end.

End WithRuntime.
(** The [key_map] of the [config] commands: the two dashed names are
    translated, any other key is used as given. *)
Definition key_map (key : string) : string :=
  if (key =? "max-retries")%string then "max_retries"
  else if (key =? "backoff-base")%string then "backoff_base"
  else key.


(** The [config get KEY] command, for a non-empty key: the value it
    prints, and the database after [Config(DB_PATH)]. *)
Definition config_get (key : string) (db : Database.t)
    : Config.value * Database.t :=
  let db := Config._init_defaults db in
  (Config.get (key_map key) None db, db).

(** The [dlq retry] command: [True] when it reports the job as moved back
    to the pending queue. *)
Definition dlq_retry {rt : Runtime} (env : Fresh) (now : datetime)
    (job_id : string) (db : Database.t) : result (bool * Database.t) :=
  QueueManager.retry_dlq_job env now job_id db.

End Cli.

(** ** A reference runtime

    An executable reading of the three library functions, used to run the
    model on concrete data.  It covers what [datetime.utcnow().isoformat()]
    prints, [YYYY-MM-DDTHH:MM:SS] followed by [.ffffff] unless the
    microseconds are zero, and integers written in decimal. *)

Module Reference.

(** Days since 1970-01-01 to year, month and day of the proleptic
    Gregorian calendar. *)
Definition civil_of_days (z : Z) : Z * Z * Z :=
  let z := z + 719468 in
  let era := z / 146097 in
  let doe := z - era * 146097 in
  let yoe := (doe - doe / 1460 + doe / 36524 - doe / 146096) / 365 in
  let doy := doe - (365 * yoe + yoe / 4 - yoe / 100) in
  let mp := (5 * doy + 2) / 153 in
  let d := doy - (153 * mp + 2) / 5 + 1 in
  let m := if mp <? 10 then mp + 3 else mp - 9 in
  let y := yoe + era * 400 in
  (if m <=? 2 then y + 1 else y, m, d).

Definition days_of_civil (y m d : Z) : Z :=
  let y := if m <=? 2 then y - 1 else y in
  let era := y / 400 in
  let yoe := y - era * 400 in
  let doy := (153 * (if m >? 2 then m - 3 else m + 9) + 2) / 5 + d - 1 in
  let doe := yoe * 365 + yoe / 4 - yoe / 100 + doy in
  era * 146097 + doe - 719468.

Definition digit (n : Z) : ascii := ascii_of_nat (48 + Z.to_nat (n mod 10)).

(** [n] in decimal on [width] digits, zero padded. *)
Fixpoint padded (width : nat) (n : Z) : string :=
  match width with
  | O => ""
  | S w => padded w (n / 10) +:+ String (digit n) ""
  end.

Definition format_iso (t : datetime) : string :=
  let us := t mod 1000000 in
  let secs := t / 1000000 in
  let sod := secs mod 86400 in
  let '(y, m, d) := civil_of_days (secs / 86400) in
  padded 4 y +:+ "-" +:+ padded 2 m +:+ "-" +:+ padded 2 d +:+ "T"
  +:+ padded 2 (sod / 3600) +:+ ":" +:+ padded 2 (sod / 60 mod 60)
  +:+ ":" +:+ padded 2 (sod mod 60)
  +:+ (if us =? 0 then "" else "." +:+ padded 6 us).

(** The value of a string of decimal digits. *)
Fixpoint number_from (acc : Z) (s : string) : option Z :=
  match s with
  | EmptyString => Some acc
  | String c s' =>
      let n := Z.of_nat (nat_of_ascii c) in
      if (48 <=? n) && (n <=? 57) then number_from (acc * 10 + (n - 48)) s'
      else None
  end.

Definition number (s : string) : option Z :=
  match s with
  | EmptyString => None
  | _ => number_from 0 s
  end.

Definition parse_iso_naive (s : string) : option datetime :=
  let len := String.length s in
  if negb ((len =? 19)%nat || (len =? 26)%nat) then None
  else if negb ((substring 4 1 s =? "-")%string
                && (substring 7 1 s =? "-")%string
                && (substring 10 1 s =? "T")%string
                && (substring 13 1 s =? ":")%string
                && (substring 16 1 s =? ":")%string) then None
  else
    match number (substring 0 4 s), number (substring 5 2 s),
          number (substring 8 2 s), number (substring 11 2 s),
          number (substring 14 2 s), number (substring 17 2 s),
          (if (len =? 19)%nat then Some 0
           else if (substring 19 1 s =? ".")%string
                then number (substring 20 6 s) else None) with
    | Some y, Some m, Some d, Some hh, Some mm, Some ss, Some us =>
        if (1 <=? y) && (1 <=? m) && (m <=? 12) && (1 <=? d) && (d <=? 31)
           && (hh <=? 23) && (mm <=? 59) && (ss <=? 59)
        then Some ((((days_of_civil y m d * 24 + hh) * 60 + mm) * 60 + ss)
                   * 1000000 + us)
        else None
    | _, _, _, _, _, _, _ => None
    end.

Definition parse_int (s : string) : option Z :=
  match NilZero.int_of_string s with
  | Some n => Some (Z.of_int n)
  | None => None
  end.

(** The stamps read here carry no offset, so every parsed value is naive. *)
Definition parse_iso (s : string) : option parsed :=
  match parse_iso_naive s with
  | Some t => Some (mkParsed t false)
  | None => None
  end.

(** Names a log file can bear: not empty, and free of the path separator. *)
Fixpoint no_slash (s : string) : bool :=
  match s with
  | EmptyString => true
  | String c s' => negb (Ascii.eqb c "/"%char) && no_slash s'
  end.

Definition file_name (s : string) : bool := truthy s && no_slash s.

Definition runtime : Runtime :=
  {| isoformat := format_iso;
     fromisoformat := parse_iso;
     py_int := parse_int;
     log_file_error :=
       fun s => if file_name s then None else Some OSError |}.

End Reference.

(** ** Stores and job histories *)

(** A row as the package writes it: the constructor never leaves [id],
    [created_at] or [updated_at] empty, [command] is [NOT NULL], and the
    [INTEGER] columns hold what SQLite accepted, 64-bit integers. *)
Definition row_ok (r : Job.t) : bool :=
  truthy (Job.id r) && truthy (Job.created_at r) && truthy (Job.updated_at r)
  && match Job.command r with Some _ => true | None => false end
  && Database.bindable r.

Definition wf_store (rows : list Job.t) : bool := forallb row_ok rows.

(** [SELECT * FROM jobs WHERE id=?], first row. *)
Definition lookup_job (job_id : string) (db : Database.t) : option Job.t :=
  Database.fetch_one (List.filter (Database.has_id job_id) (Database.jobs db)).

(** A job as [enqueue] stores it when the request names none of the
    bookkeeping fields. *)
Definition enqueued (j : Job.t) : Prop :=
  Job.state j = Job.pending /\ Job.attempts j = 0 /\ Job.next_retry_at j = None.

Section Lifecycle.
Context {rt : Runtime}.

(** One transition of a job under the worker loop: a claim by
    [get_next_job], which only takes rows its query selects, or the outcome
    of [process_job], which only runs on a claimed job. *)
Inductive step : Job.t -> Job.t -> Prop :=
| step_claim (now now_p : datetime) (j : Job.t) :
    QueueManager.claimable (isoformat now) j = true ->
    step j (Job.mark_processing now_p j)
| step_result (clk : Worker.clocks) (timeout : Z) (o : Worker.run_outcome)
    (db : Database.t) (j j' : Job.t) :
    Job.state j = Job.processing ->
    Worker.apply_result clk (Worker.execute_command timeout o) db j = Ok j' ->
    step j j'.

End Lifecycle.

(** The stamps [mark_completed] parses can be parsed, and read as naive
    datetimes, as every stamp printed from [datetime.utcnow()] does. *)
Definition stamps_readable {rt : Runtime} (now : datetime) (job : Job.t) : Prop :=
  forall s, Job.started_at job = Some s -> truthy s = true ->
    exists start stop,
      fromisoformat s = Some (mkParsed start false)
      /\ fromisoformat (isoformat now) = Some (mkParsed stop false).

(** What every step keeps: a dead job has used exactly its [max_retries]
    attempts and has no retry time; any other job has attempts left. *)
Definition attempts_inv (j : Job.t) : Prop :=
  match Job.state j with
  | Job.dead =>
      Job.attempts j = Job.max_retries j /\ Job.next_retry_at j = None
  | _ => Job.attempts j < Job.max_retries j
  end.

(** What holds of a job at every point of its history, whatever its
    [max_retries]: a pending job has not been tried, a failed one has
    attempts left and a retry time, a processing one a start time, a
    completed one a completion time and a duration, and a dead one has been
    tried once if [max_retries] is below one and [max_retries] times
    otherwise, and has no retry time. *)
Definition history_inv (j : Job.t) : Prop :=
  match Job.state j with
  | Job.pending => Job.attempts j = 0
  | Job.failed =>
      0 <= Job.attempts j < Job.max_retries j /\ Job.next_retry_at j <> None
  | Job.processing =>
      0 <= Job.attempts j < Z.max 1 (Job.max_retries j)
      /\ Job.started_at j <> None
  | Job.completed =>
      0 <= Job.attempts j < Z.max 1 (Job.max_retries j)
      /\ Job.completed_at j <> None /\ Job.execution_time j <> None
  | Job.dead =>
      Job.attempts j = Z.max 1 (Job.max_retries j)
      /\ Job.next_retry_at j = None
  end.

(** The fields no transition touches. *)
Definition same_identity (a b : Job.t) : Prop :=
  Job.id b = Job.id a /\ Job.command b = Job.command a
  /\ Job.created_at b = Job.created_at a
  /\ Job.max_retries b = Job.max_retries a
  /\ Job.priority b = Job.priority a /\ Job.timeout b = Job.timeout a
  /\ Job.run_at b = Job.run_at a.

(** [PRIMARY KEY]: no two rows share an id. *)
Definition unique_ids (rows : list Job.t) : Prop :=
  List.NoDup (map Job.id rows).

(** Whether a retry [delay] seconds after [now] is a time Python can
    hold: the delay is within the [timedelta] range (at most 999999999 days
    either way) and the sum is between [datetime.min] and [datetime.max],
    the years 1 to 9999. *)
Definition retry_time_fits (now : datetime) (delay : Z) : bool :=
  (-86399999913600 <=? delay) && (delay <=? 86399999999999)
  && (-62135596800000000 <=? now + 1000000 * delay)
  && (now + 1000000 * delay <=? 253402300799999999).

(** What a failed attempt leaves as error message: the captured stderr, or
    the exit code when stderr is empty; the timeout notice; the text of the
    exception, or exit code -1 when that text is empty. *)
Definition reported_error (timeout : Z) (o : Worker.run_outcome) : string :=
  match o with
  | Worker.Exited returncode _ stderr =>
      if (stderr =? "")%string then "Exit code: " +:+ py_str returncode
      else stderr
  | Worker.TimeoutExpired =>
      "Command timed out after " +:+ py_str timeout +:+ " seconds"
  | Worker.OtherException message
  | Worker.UndecodableOutput _ message =>
      if (message =? "")%string then "Exit code: -1" else message
  end.

(** The number of rows with a given priority. *)
Definition count_priority (p : Z) (rows : list Job.t) : nat :=
  length (List.filter (fun r => Job.priority r =? p) rows).

(** ** The orders and filters the specification speaks of *)

(** [a] comes strictly before [b] under priority descending, then
    [created_at] ascending. *)
Definition claim_before (a b : Job.t) : Prop :=
  Job.priority b < Job.priority a
  \/ (Job.priority a = Job.priority b
      /\ (Job.created_at b <=? Job.created_at a)%string = false).

(** [a] does not come after [b] under that order. *)
Definition claim_not_after (a b : Job.t) : Prop :=
  Job.priority b < Job.priority a
  \/ (Job.priority a = Job.priority b
      /\ (Job.created_at a <=? Job.created_at b)%string = true).

(** The order as the specification words it: priority descending, then
    [created_at] ascending, then [id] ascending. *)
Definition spec_claim_before (a b : Job.t) : bool :=
  (Job.priority b <? Job.priority a)
  || ((Job.priority a =? Job.priority b)
      && ((Job.created_at a <? Job.created_at b)%string
          || ((Job.created_at a =? Job.created_at b)%string
              && (Job.id a <? Job.id b)%string))).

(** [a] may be listed before [b]: priority descending, then [created_at]
    descending. *)
Definition listed_before (a b : Job.t) : Prop :=
  Job.priority b < Job.priority a
  \/ (Job.priority a = Job.priority b
      /\ (Job.created_at b <=? Job.created_at a)%string = true).

(** The rows the two optional filters of [list_jobs] ask for. *)
Definition matches (state : option Job.State) (priority : option Z)
    (r : Job.t) : bool :=
  match state with Some s => Job.State_eqb (Job.state r) s | None => true end
  && match priority with Some p => Job.priority r =? p | None => true end.

(** The mean of a list of numbers, [0] for the empty list. *)
Definition mean (xs : list Q) : Q :=
  match xs with
  | [] => 0%Q
  | _ :: _ => (fold_right Qplus 0 xs / inject_Z (Z.of_nat (length xs)))%Q
  end.

(** Requests the enqueue command turns away: text that is not JSON, an
    object without a [command] member or with a null one, and a call with
    neither a JSON argument nor a non-empty [--command]. *)
Inductive turned_away : option Cli.json -> option string -> Prop :=
| away_bad_json command :
    turned_away (Some Cli.JSONDecodeError) command
| away_no_command data command :
    Job.k_command data = None ->
    turned_away (Some (Cli.Object data)) command
| away_null_command data command :
    Job.k_command data = Some None ->
    turned_away (Some (Cli.Object data)) command
| away_nothing command :
    truthy_opt command = false ->
    turned_away None command.

(** ** Concrete data

    Jobs, stores and clock readings on which the model is run. *)

Module Sample.

Definition rt : Runtime := Reference.runtime.

(** 2025-01-01T00:00:00 and the seconds after it. *)
Definition t0 : datetime := 1735689600000000.
Definition at_second (n : Z) : datetime := t0 + n * 1000000.

Definition env : Fresh :=
  mkFresh "123e4567-e89b-42d3-a456-426614174000" (at_second 1) (at_second 1).

(** A freshly enqueued job. *)
Definition job (id : string) (priority max_retries : Z) : Job.t :=
  Job.mk id (Some "echo hi") Job.pending 0 max_retries
    "2025-01-01T00:00:00" "2025-01-01T00:00:00" None None None
    priority 300 None None None None.

(** A database whose [config] table holds the defaults. *)
Definition store (rows : list Job.t) : Database.t :=
  Config._init_defaults (Database.mk rows ∅).

(** Two jobs that tie on priority and [created_at], stored in the order
    [b], [a]. *)
Definition job_b : Job.t := job "b" 0 3.
Definition job_a : Job.t := job "a" 0 3.
Definition tie_store : Database.t := store [job_b; job_a].



(** A store with a dead job, a completed one and a pending one. *)
Definition job_dead : Job.t :=
  Job.mk "d" (Some "false") Job.dead 3 3
    "2025-01-01T00:00:01" "2025-01-01T00:00:09" None (Some "Exit code: 1")
    None 5 300 None (Some "2025-01-01T00:00:08") None None.

Definition job_done : Job.t :=
  Job.mk "e" (Some "echo hi") Job.completed 0 3
    "2025-01-01T00:00:02" "2025-01-01T00:00:04" None None (Some "hi")
    5 300 None (Some "2025-01-01T00:00:03") (Some "2025-01-01T00:00:04")
    (Some (3 # 2)%Q).

Definition mixed_store : Database.t :=
  store [job_dead; job_a; job_done].

(** [job_a] once claimed at second 3, and the store that holds it. *)
Definition job_claimed : Job.t :=
  Job.mark_processing (rt := rt) (at_second 3) job_a.

Definition claimed_store : Database.t := store [job_b; job_claimed].

(** The subprocess runs for one second, from 0.2 s after the claim; the
    job is marked completed 0.1 s after the subprocess has ended. *)
Definition clk : Worker.clocks :=
  {| Worker.time_start := (1735689603200000 # 1000000)%Q;
     Worker.time_end := (1735689604200000 # 1000000)%Q;
     Worker.utcnow_log := t0 + 4250000;
     Worker.utcnow_done := t0 + 4300000;
     Worker.utcnow_retry := t0 + 4300010 |}.

(** A job enqueued with [max_retries = 0], claimed at second 3, whose
    command then exits with code 1. *)
Definition job_zero : Job.t := job "z" 0 0.

Definition job_zero_claimed : Job.t :=
  Job.mark_processing (rt := rt) (at_second 3) job_zero.

Definition job_zero_failed : Job.t :=
  match Job.mark_for_retry (rt := rt) (Worker.utcnow_done clk)
          (Worker.utcnow_retry clk) "Exit code: 1" 2 job_zero_claimed with
  | Ok j => j
  | Raise _ => job_zero_claimed
  end.

(** [job_a] claimed at second 3, after its command has exited with
    code 1. *)
Definition job_a_failed : Job.t :=
  match Job.mark_for_retry (rt := rt) (Worker.utcnow_done clk)
          (Worker.utcnow_retry clk) "Exit code: 1" 2 job_claimed with
  | Ok j => j
  | Raise _ => job_claimed
  end.

(** Two JSON objects: the empty one, and the one whose only member is a
    [command] that is the empty string. *)
Definition no_command : Job.dict := Cli.empty_dict.

Definition empty_command : Job.dict :=
  Job.mkDict None (Some (Some "")) None None None None None None
             None None None None None None None None.

(** [tie_store] after a claim at second 5 that is marked at second 6, and
    after a second claim at second 7 that is marked at second 8. *)
Definition job_b_claimed : Job.t :=
  Job.mark_processing (rt := rt) (at_second 6) job_b.

Definition tie_store_claimed : Database.t := store [job_b_claimed; job_a].

Definition job_a_claimed : Job.t :=
  Job.mark_processing (rt := rt) (at_second 8) job_a.

Definition tie_store_claimed_twice : Database.t :=
  store [job_b_claimed; job_a_claimed].

(** [tie_store] with a [backoff_base] that is not a number, before and
    after the first claim. *)
Definition odd_store : Database.t :=
  Config.set "backoff_base" "fast" tie_store.

Definition odd_store_claimed : Database.t :=
  Config.set "backoff_base" "fast" tie_store_claimed.

(** [job_dead] after a dead-letter retry at second 20, and [mixed_store]
    with it. *)
Definition job_dead_retried : Job.t :=
  Job.set_updated_at (isoformat (Runtime := rt) (at_second 20))
    (Job.set_error_message None
       (Job.set_next_retry_at None
          (Job.set_attempts 0 (Job.set_state Job.pending job_dead)))).

Definition mixed_store_retried : Database.t :=
  store [job_dead_retried; job_a; job_done].

(** A JSON object that names a command and the id [a]. *)
Definition command_with_id_a : Job.dict :=
  Job.mkDict (Some (Some "a")) (Some (Some "echo again")) None None None
             None None None None None None None None None None None.

End Sample.

(** * Properties *)

(** ** Text order *)

Lemma string_compare_lexical (a b : string) :
  String.compare a b = String_as_OT.compare a b.
Proof. reflexivity. Qed.

Lemma string_leb_spec (a b : string) :
  (a <=? b)%string = true <-> a = b \/ String_as_OT.lt a b.
Proof.
  unfold String.leb. rewrite string_compare_lexical.
  destruct (String_as_OT.compare_spec a b) as [E|L|G]; split; intros H; auto.
  - discriminate.
  - exfalso. destruct H as [->|H].
    + exact (StrictOrder_Irreflexive _ G).
    + exact (StrictOrder_Irreflexive _ (StrictOrder_Transitive _ _ _ H G)).
Qed.

Lemma string_leb_refl (a : string) : (a <=? a)%string = true.
Proof. apply string_leb_spec. now left. Qed.

Lemma string_leb_trans (a b c : string) :
  (a <=? b)%string = true -> (b <=? c)%string = true -> (a <=? c)%string = true.
Proof.
  rewrite !string_leb_spec. intros [->|H1] [->|H2]; auto.
  right. exact (StrictOrder_Transitive _ _ _ H1 H2).
Qed.

Lemma string_leb_false (a b : string) :
  (a <=? b)%string = false -> (b <=? a)%string = true.
Proof.
  intros H. destruct (String.leb_total a b) as [H'|H']; congruence.
Qed.

Example format_iso_whole_second :
  Reference.format_iso 1700000000000000 = "2023-11-14T22:13:20".
Proof. vm_compute. reflexivity. Qed.

Example format_iso_microseconds :
  Reference.format_iso 1700000000000123 = "2023-11-14T22:13:20.000123".
Proof. vm_compute. reflexivity. Qed.

Example parse_iso_microseconds :
  Reference.parse_iso_naive "2023-11-14T22:13:20.000123"
  = Some 1700000000000123.
Proof. vm_compute. reflexivity. Qed.

Example parse_iso_leap_day :
  Reference.parse_iso_naive "2000-02-29T00:00:00" = Some 951782400000000.
Proof. vm_compute. reflexivity. Qed.

(** ** Facts about [ORDER BY] and [WHERE] *)

Section OrderBy.
Context {A : Type} (le : A -> A -> bool).
Hypothesis le_total : forall a b, le a b = false -> le b a = true.
Hypothesis le_trans :
  forall a b c, le a b = true -> le b c = true -> le a c = true.

Lemma insert_by_perm (x : A) (l : list A) :
  Permutation (Database.insert_by le x l) (x :: l).
Proof.
  induction l as [|y l IH]; simpl; [reflexivity|].
  destruct (le x y); [reflexivity|].
  rewrite IH. apply perm_swap.
Qed.

Lemma order_by_perm (l : list A) : Permutation (Database.order_by le l) l.
Proof.
  induction l as [|x l IH]; simpl; [reflexivity|].
  rewrite insert_by_perm. now constructor.
Qed.

Lemma insert_by_sorted (x : A) (l : list A) :
  StronglySorted (fun a b => le a b = true) l ->
  StronglySorted (fun a b => le a b = true) (Database.insert_by le x l).
Proof.
  induction 1 as [|y l Hs IH Hy]; simpl.
  - repeat constructor.
  - destruct (le x y) eqn:Hxy.
    + constructor; [now constructor|].
      constructor; [exact Hxy|].
      eapply List.Forall_impl; [|exact Hy]. intros z Hz. eauto.
    + constructor; [exact IH|].
      rewrite (insert_by_perm x l). constructor; [|exact Hy]. auto.
Qed.

Lemma order_by_sorted (l : list A) :
  StronglySorted (fun a b => le a b = true) (Database.order_by le l).
Proof.
  induction l as [|x l IH]; simpl; [constructor|].
  now apply insert_by_sorted.
Qed.

Lemma fetch_one_insert_by (x : A) (l : list A) :
  Database.fetch_one (Database.insert_by le x l)
  = match Database.fetch_one l with
    | Some y => if le x y then Some x else Some y
    | None => Some x
    end.
Proof. destruct l as [|y l]; simpl; [reflexivity|]. now destruct (le x y). Qed.

(** The first row of the sorted rows is the first best row of the scan:
    every row before it sorts strictly later, no row after it sorts
    earlier. *)
Lemma order_by_first (l : list A) (r : A) :
  Database.fetch_one (Database.order_by le l) = Some r ->
  exists l1 l2,
    l = l1 ++ r :: l2
    /\ Forall (fun x => le x r = false) l1
    /\ Forall (fun x => le r x = true) l2.
Proof.
  revert r. induction l as [|x l IH]; intros r; simpl; [discriminate|].
  rewrite fetch_one_insert_by.
  destruct (Database.fetch_one (Database.order_by le l)) as [y|] eqn:Hy.
  - destruct (IH y eq_refl) as (l1 & l2 & -> & H1 & H2).
    destruct (le x y) eqn:Hxy; intros [= <-].
    + exists [], (l1 ++ y :: l2). split; [reflexivity|].
      split; [constructor|].
      apply List.Forall_app. split; [|constructor].
      * eapply List.Forall_impl; [|exact H1]. intros z Hz. simpl in Hz. eauto.
      * exact Hxy.
      * eapply List.Forall_impl; [|exact H2]. intros z Hz. simpl in Hz. eauto.
    + exists (x :: l1), l2. split; [reflexivity|].
      split; [now constructor|exact H2].
  - assert (l = []) as ->.
    { apply Permutation_nil. rewrite <- (order_by_perm l).
      now destruct (Database.order_by le l). }
    intros [= <-]. exists [], []. repeat split; constructor.
Qed.

Lemma order_by_none (l : list A) :
  Database.fetch_one (Database.order_by le l) = None -> l = [].
Proof.
  intros H. apply Permutation_nil. rewrite <- (order_by_perm l).
  now destruct (Database.order_by le l).
Qed.

End OrderBy.

Lemma filter_split {A} (p : A -> bool) (l l1 l2 : list A) (r : A) :
  List.filter p l = l1 ++ r :: l2 ->
  exists m1 m2,
    l = m1 ++ r :: m2 /\ List.filter p m1 = l1 /\ List.filter p m2 = l2
    /\ p r = true.
Proof.
  revert l1. induction l as [|x l IH]; intros l1; simpl.
  - now destruct l1.
  - destruct (p x) eqn:Hx.
    + destruct l1 as [|y l1]; simpl; intros [= -> H].
      * exists [], l. auto.
      * destruct (IH _ H) as (m1 & m2 & -> & <- & <- & Hr).
        exists (y :: m1), m2. simpl. rewrite Hx. auto.
    + intros H. destruct (IH _ H) as (m1 & m2 & -> & <- & <- & Hr).
      exists (x :: m1), m2. simpl. rewrite Hx. auto.
Qed.

Lemma le_claim_total (a b : Job.t) :
  Database.le_priority_desc_created_asc a b = false ->
  Database.le_priority_desc_created_asc b a = true.
Proof.
  unfold Database.le_priority_desc_created_asc.
  destruct (Z.ltb_spec (Job.priority b) (Job.priority a)); [discriminate|].
  destruct (Z.ltb_spec (Job.priority a) (Job.priority b)); [reflexivity|].
  destruct (Z.eqb_spec (Job.priority a) (Job.priority b)); [|lia].
  destruct (Z.eqb_spec (Job.priority b) (Job.priority a)); [|lia].
  simpl. apply string_leb_false.
Qed.

Lemma le_claim_trans (a b c : Job.t) :
  Database.le_priority_desc_created_asc a b = true ->
  Database.le_priority_desc_created_asc b c = true ->
  Database.le_priority_desc_created_asc a c = true.
Proof.
  unfold Database.le_priority_desc_created_asc.
  rewrite !orb_true_iff, !andb_true_iff, !Z.ltb_lt, !Z.eqb_eq.
  intros [H1|[H1 L1]] [H2|[H2 L2]]; try (left; lia).
  right. split; [lia|]. eapply string_leb_trans; eassumption.
Qed.

Lemma le_list_total (a b : Job.t) :
  Database.le_priority_desc_created_desc a b = false ->
  Database.le_priority_desc_created_desc b a = true.
Proof.
  unfold Database.le_priority_desc_created_desc.
  destruct (Z.ltb_spec (Job.priority b) (Job.priority a)); [discriminate|].
  destruct (Z.ltb_spec (Job.priority a) (Job.priority b)); [reflexivity|].
  destruct (Z.eqb_spec (Job.priority a) (Job.priority b)); [|lia].
  destruct (Z.eqb_spec (Job.priority b) (Job.priority a)); [|lia].
  simpl. apply string_leb_false.
Qed.

Lemma le_list_trans (a b c : Job.t) :
  Database.le_priority_desc_created_desc a b = true ->
  Database.le_priority_desc_created_desc b c = true ->
  Database.le_priority_desc_created_desc a c = true.
Proof.
  unfold Database.le_priority_desc_created_desc.
  rewrite !orb_true_iff, !andb_true_iff, !Z.ltb_lt, !Z.eqb_eq.
  intros [H1|[H1 L1]] [H2|[H2 L2]]; try (left; lia).
  right. split; [lia|]. eapply string_leb_trans; eassumption.
Qed.

Lemma le_created_total (a b : Job.t) :
  Database.le_created_desc a b = false -> Database.le_created_desc b a = true.
Proof. apply string_leb_false. Qed.

Lemma le_created_trans (a b c : Job.t) :
  Database.le_created_desc a b = true ->
  Database.le_created_desc b c = true ->
  Database.le_created_desc a c = true.
Proof.
  unfold Database.le_created_desc. intros H1 H2.
  eapply string_leb_trans; eassumption.
Qed.

Lemma le_claim_false (x r : Job.t) :
  Database.le_priority_desc_created_asc x r = false -> claim_before r x.
Proof.
  unfold Database.le_priority_desc_created_asc, claim_before.
  rewrite orb_false_iff, andb_false_iff, Z.ltb_ge, Z.eqb_neq.
  intros [H1 [H2|H2]].
  - left. lia.
  - destruct (Z.eq_dec (Job.priority r) (Job.priority x)) as [E|E].
    + right. auto.
    + left. lia.
Qed.

Lemma le_claim_true (r x : Job.t) :
  Database.le_priority_desc_created_asc r x = true -> claim_not_after r x.
Proof.
  unfold Database.le_priority_desc_created_asc, claim_not_after.
  rewrite orb_true_iff, andb_true_iff, Z.ltb_lt, Z.eqb_eq. tauto.
Qed.

Lemma le_list_true (a b : Job.t) :
  Database.le_priority_desc_created_desc a b = true -> listed_before a b.
Proof.
  unfold Database.le_priority_desc_created_desc, listed_before.
  rewrite orb_true_iff, andb_true_iff, Z.ltb_lt, Z.eqb_eq. tauto.
Qed.

(** ** Well-formed rows *)

Lemma or_else_truthy (s d : string) : truthy s = true -> or_else (Some s) d = s.
Proof. intros H. simpl. now rewrite H. Qed.

Section RowFacts.
Context {rt : Runtime}.

Lemma from_db_row_ok (env : Fresh) (r : Job.t) :
  row_ok r = true -> Job.from_db_row env r = r.
Proof.
  unfold row_ok. rewrite !andb_true_iff. intros [[[[Hi Hc] Hu] _] _].
  unfold Job.from_db_row, Job.__init__.
  rewrite !or_else_truthy by assumption. now destruct r.
Qed.

Lemma imap_from_db_row (envs : nat -> Fresh) (rows : list Job.t) :
  forallb row_ok rows = true ->
  imap (fun i row => Job.from_db_row (envs i) row) rows = rows.
Proof.
  revert envs. induction rows as [|r rows IH]; intros envs; simpl;
    [reflexivity|].
  rewrite andb_true_iff. intros [Hr Hrows].
  rewrite from_db_row_ok by assumption. f_equal.
  apply (IH (envs ∘ S)). exact Hrows.
Qed.

(** What the constructor builds is a well-formed row as soon as it has a
    command and its integers are 64-bit ones, whatever it is given for the
    three defaulted fields. *)
Lemma init_row_ok (env : Fresh) id command state attempts max_retries
    created_at updated_at next_retry_at error_message output priority
    timeout run_at started_at completed_at execution_time :
  truthy (uuid4 env) = true ->
  truthy (isoformat (utcnow_created env)) = true ->
  truthy (isoformat (utcnow_updated env)) = true ->
  int64 attempts && int64 max_retries && int64 priority && int64 timeout
  = true ->
  row_ok (Job.__init__ env id (Some command) state attempts max_retries
            created_at updated_at next_retry_at error_message output
            priority timeout run_at started_at completed_at execution_time)
  = true.
Proof.
  intros Hu Hc Hp Hb. unfold row_ok, Job.__init__, Database.bindable. simpl.
  assert (forall o d, truthy d = true -> truthy (or_else o d) = true) as H.
  { intros [s|] d Hd; simpl; [|exact Hd]. now destruct (truthy s) eqn:E. }
  now rewrite !H, Hb.
Qed.

End RowFacts.

(** ** The claim operation *)

Lemma wf_store_In (rows : list Job.t) (r : Job.t) :
  wf_store rows = true -> In r rows -> row_ok r = true.
Proof. unfold wf_store. rewrite forallb_forall. auto. Qed.

Lemma row_ok_command (r : Job.t) : row_ok r = true -> Job.command r <> None.
Proof.
  unfold row_ok. rewrite !andb_true_iff. intros [[_ H] _] E.
  now rewrite E in H.
Qed.

Lemma row_ok_bindable (r : Job.t) :
  row_ok r = true -> Database.bindable r = true.
Proof. unfold row_ok. rewrite !andb_true_iff. tauto. Qed.

Lemma filter_nil_Forall {A} (p : A -> bool) (l : list A) :
  List.filter p l = [] -> Forall (fun x => p x = false) l.
Proof.
  induction l as [|x l IH]; simpl; [constructor|].
  destruct (p x) eqn:Hx; [discriminate|]. intros H. constructor; auto.
Qed.

Lemma filter_In_Forall {A} (p : A -> bool) (P : A -> Prop) (l : list A) :
  Forall P (List.filter p l) -> forall x, In x l -> p x = true -> P x.
Proof.
  rewrite List.Forall_forall. intros H x Hx Hp. apply H.
  apply filter_In. auto.
Qed.

Section ClaimOperation.
Context {rt : Runtime}.

Lemma update_job_total (job : Job.t) (db : Database.t) :
  Job.command job <> None ->
  Database.bindable job = true ->
  exists db', QueueManager.update_job job db = Ok db'.
Proof.
  intros Hc Hb. unfold QueueManager.update_job, Database.update_job_row.
  rewrite Hb. cbn [negb].
  destruct (existsb _ _); [|eauto].
  destruct (Job.command job); [eauto|congruence].
Qed.

(** C1 (as amended).  On a well-formed store [get_next_job] does not raise.
    It returns no job exactly when no row is eligible; otherwise it returns
    an eligible row, marked as processing, such that every eligible row
    stored before it comes strictly later under priority descending then
    [created_at] ascending, and no eligible row stored after it comes
    earlier.  Rows that tie on both keys are told apart by their place in
    the table, not by [id]. *)
Theorem get_next_job_first_best (env : Fresh) (now now_p : datetime)
    (db : Database.t) :
  wf_store (Database.jobs db) = true ->
  (Forall (fun r => QueueManager.claimable (isoformat now) r = false)
          (Database.jobs db)
   /\ QueueManager.get_next_job env now now_p db = Ok (None, db))
  \/ exists before row after db',
       Database.jobs db = before ++ row :: after
       /\ QueueManager.get_next_job env now now_p db
          = Ok (Some (Job.mark_processing now_p row), db')
       /\ QueueManager.claimable (isoformat now) row = true
       /\ (forall r, In r before ->
             QueueManager.claimable (isoformat now) r = true ->
             claim_before row r)
       /\ (forall r, In r after ->
             QueueManager.claimable (isoformat now) r = true ->
             claim_not_after row r).
Proof.
  intros Hwf. unfold QueueManager.get_next_job, QueueManager.next_job_candidates.
  destruct (Database.fetch_one _) as [row|] eqn:Hrow.
  - right.
    apply (order_by_first _ le_claim_total le_claim_trans) in Hrow.
    destruct Hrow as (l1 & l2 & Hsplit & H1 & H2).
    apply filter_split in Hsplit.
    destruct Hsplit as (m1 & m2 & Hjobs & <- & <- & Hrow).
    assert (row_ok row = true) as Hok.
    { apply (wf_store_In _ _ Hwf). rewrite Hjobs. apply in_elt. }
    rewrite (from_db_row_ok env row Hok).
    destruct (update_job_total (Job.mark_processing now_p row) db)
      as [db' Hdb'];
      [exact (row_ok_command _ Hok)|exact (row_ok_bindable _ Hok)|].
    exists m1, row, m2, db'. rewrite Hdb'. simpl.
    repeat split; try assumption.
    + intros r Hr Hc. apply le_claim_false.
      exact (filter_In_Forall _ _ _ H1 r Hr Hc).
    + intros r Hr Hc. apply le_claim_true.
      exact (filter_In_Forall _ _ _ H2 r Hr Hc).
  - left. split; [|reflexivity].
    apply filter_nil_Forall.
    exact (order_by_none _ _ Hrow).
Qed.

End ClaimOperation.

Lemma get_next_job_first_best_witness :
  wf_store (Database.jobs Sample.tie_store) = true
  /\ ((Forall (fun r => QueueManager.claimable
                          (isoformat (Runtime := Sample.rt) (Sample.at_second 5)) r
                        = false)
              (Database.jobs Sample.tie_store)
       /\ QueueManager.get_next_job (rt := Sample.rt) Sample.env
            (Sample.at_second 5) (Sample.at_second 6) Sample.tie_store
          = Ok (None, Sample.tie_store))
      \/ exists before row after db',
           Database.jobs Sample.tie_store = before ++ row :: after
           /\ QueueManager.get_next_job (rt := Sample.rt) Sample.env
                (Sample.at_second 5) (Sample.at_second 6) Sample.tie_store
              = Ok (Some (Job.mark_processing (rt := Sample.rt)
                            (Sample.at_second 6) row), db')
           /\ QueueManager.claimable
                (isoformat (Runtime := Sample.rt) (Sample.at_second 5)) row
              = true
           /\ (forall r, In r before ->
                 QueueManager.claimable
                   (isoformat (Runtime := Sample.rt) (Sample.at_second 5)) r
                 = true ->
                 claim_before row r)
           /\ (forall r, In r after ->
                 QueueManager.claimable
                   (isoformat (Runtime := Sample.rt) (Sample.at_second 5)) r
                 = true ->
                 claim_not_after row r)).
Proof.
  split; [reflexivity|].
  apply (get_next_job_first_best (rt := Sample.rt)). reflexivity.
Defined.

(** Counterexample to C1 as worded: of two eligible jobs that tie on priority
    and [created_at], the claim returns the one stored first, [b], although
    [a] comes first by [id]. *)
Lemma get_next_job_ignores_id_order :
  match QueueManager.get_next_job (rt := Sample.rt) Sample.env
          (Sample.at_second 5) (Sample.at_second 6) Sample.tie_store with
  | Ok (Some job, _) => Job.id job = "b"
  | _ => False
  end
  /\ In Sample.job_a (Database.jobs Sample.tie_store)
  /\ QueueManager.claimable
       (isoformat (Runtime := Sample.rt) (Sample.at_second 5)) Sample.job_a
     = true
  /\ spec_claim_before Sample.job_a Sample.job_b = true.
Proof.
  split; [vm_compute; reflexivity|].
  split; [right; left; reflexivity|].
  split; vm_compute; reflexivity.
Qed.

(** ** [update_job] on an unknown id *)





(** ** Dictionary round trip *)

(** C6.  [from_dict (to_dict j)] is [j], field for field, for every job
    the package can hold: one whose [id], [created_at] and [updated_at] are
    not empty, which is how the constructor leaves them and how every method
    keeps them. *)
Theorem from_dict_to_dict {rt : Runtime} (env : Fresh) (j : Job.t) :
  truthy (Job.id j) = true ->
  truthy (Job.created_at j) = true ->
  truthy (Job.updated_at j) = true ->
  Job.from_dict env (Job.to_dict j) = j.
Proof.
  destruct j as [i c s a m ca ua nr em o p t r sa co et]. simpl.
  intros Hi Hc Hu. unfold Job.from_dict, Job.to_dict, Job.__init__. simpl.
  now rewrite Hi, Hc, Hu.
Qed.

Lemma from_dict_to_dict_witness :
  truthy (Job.id Sample.job_a) = true
  /\ truthy (Job.created_at Sample.job_a) = true
  /\ truthy (Job.updated_at Sample.job_a) = true
  /\ Job.from_dict (rt := Sample.rt) Sample.env (Job.to_dict Sample.job_a)
     = Sample.job_a.
Proof.
  split; [reflexivity|]. split; [reflexivity|]. split; [reflexivity|].
  apply (from_dict_to_dict (rt := Sample.rt)); reflexivity.
Defined.

(** ** The failure transition *)

Lemma timedelta_seconds_spec (n : Z) :
  timedelta_seconds n
  = if (-86399999913600 <=? n) && (n <=? 86399999999999)
    then Ok (1000000 * n) else Raise OverflowError.
Proof.
  unfold timedelta_seconds, timedelta_max_days.
  replace (n * 1000000 / 86400000000) with (n / 86400).
  2:{ change 86400000000 with (86400 * 1000000).
      now rewrite Z.div_mul_cancel_r. }
  pose proof (Z.div_mod n 86400 ltac:(lia)) as Hd.
  pose proof (Z.mod_pos_bound n 86400 ltac:(lia)) as Hm.
  match goal with
  | |- (if ?b then _ else _) = _ =>
      assert (b = (-86399999913600 <=? n) && (n <=? 86399999999999)) as ->
  end.
  { apply Bool.eq_iff_eq_true. rewrite !andb_true_iff, !Z.leb_le. lia. }
  destruct ((-86399999913600 <=? n) && (n <=? 86399999999999));
    [|reflexivity].
  f_equal. lia.
Qed.

(** C2 (as amended).  [mark_for_retry] adds one to [attempts] and records
    the message.  When the new count is not below [max_retries] the job is
    [dead] and has no retry time.  When it is, and a time
    [backoff_base ^ attempts] seconds after the clock reading (the exponent
    being the new count) is one Python can hold, the job is [failed] and due
    again at that time; when that time cannot be held, no job comes back:
    [OverflowError] is raised. *)
Theorem mark_for_retry_spec {rt : Runtime} (now_u now_r : datetime)
    (e : string) (B : Z) (j : Job.t) :
  0 <= Job.attempts j ->
  match Job.mark_for_retry now_u now_r e B j with
  | Ok j' =>
      Job.attempts j' = Job.attempts j + 1
      /\ Job.error_message j' = Some e
      /\ (if Job.attempts j + 1 <? Job.max_retries j
          then Job.state j' = Job.failed
               /\ Job.next_retry_at j'
                  = Some (isoformat
                            (now_r + 1000000 * B ^ (Job.attempts j + 1)))
               /\ retry_time_fits now_r (B ^ (Job.attempts j + 1)) = true
          else Job.state j' = Job.dead /\ Job.next_retry_at j' = None)
  | Raise ex =>
      ex = OverflowError
      /\ Job.attempts j + 1 < Job.max_retries j
      /\ retry_time_fits now_r (B ^ (Job.attempts j + 1)) = false
  end.
Proof.
  intros _. unfold Job.mark_for_retry, Job.should_retry,
    Job.calculate_retry_delay, retry_time_fits.
  cbn [Job.attempts Job.max_retries Job.set_attempts Job.set_error_message
       Job.set_updated_at Job.set_state].
  destruct (Z.ltb_spec (Job.attempts j + 1) (Job.max_retries j)) as [Hlt|Hge].
  - rewrite timedelta_seconds_spec.
    destruct ((-86399999913600 <=? B ^ (Job.attempts j + 1))
              && (B ^ (Job.attempts j + 1) <=? 86399999999999)); cbn [bind].
    + unfold datetime_add, datetime_min, datetime_max.
      destruct ((-62135596800000000
                 <=? now_r + 1000000 * B ^ (Job.attempts j + 1))
                && (now_r + 1000000 * B ^ (Job.attempts j + 1)
                    <=? 253402300799999999)) eqn:E; cbn [bind].
      * repeat split. cbn [andb]. exact E.
      * repeat split; [assumption|]. cbn [andb]. exact E.
    + auto.
  - repeat split.
Qed.

Lemma mark_for_retry_spec_witness :
  0 <= Job.attempts Sample.job_a
  /\ match Job.mark_for_retry (rt := Sample.rt) (Sample.at_second 7)
            (Sample.at_second 7) "Exit code: 1" 2 Sample.job_a with
     | Ok j' =>
         Job.attempts j' = Job.attempts Sample.job_a + 1
         /\ Job.error_message j' = Some "Exit code: 1"
         /\ (if Job.attempts Sample.job_a + 1 <? Job.max_retries Sample.job_a
             then Job.state j' = Job.failed
                  /\ Job.next_retry_at j'
                     = Some (isoformat (Runtime := Sample.rt)
                               (Sample.at_second 7
                                + 1000000
                                  * 2 ^ (Job.attempts Sample.job_a + 1)))
                  /\ retry_time_fits (Sample.at_second 7)
                       (2 ^ (Job.attempts Sample.job_a + 1)) = true
             else Job.state j' = Job.dead /\ Job.next_retry_at j' = None)
     | Raise ex =>
         ex = OverflowError
         /\ Job.attempts Sample.job_a + 1 < Job.max_retries Sample.job_a
         /\ retry_time_fits (Sample.at_second 7)
              (2 ^ (Job.attempts Sample.job_a + 1)) = false
     end.
Proof.
  split; [vm_compute; discriminate|].
  apply (mark_for_retry_spec (rt := Sample.rt)). vm_compute. discriminate.
Defined.

(** Counterexample to C2 as worded: a first failure of a job with three
    attempts allowed, under [backoff_base = 10^13], does not leave the job
    failed with a retry time: the time would lie some 300000 years ahead,
    and [mark_for_retry] raises. *)
Lemma mark_for_retry_overflow :
  Job.attempts Sample.job_a + 1 < Job.max_retries Sample.job_a
  /\ Job.mark_for_retry (rt := Sample.rt) (Sample.at_second 7)
       (Sample.at_second 7) "Exit code: 1" (10 ^ 13) Sample.job_a
     = Raise OverflowError.
Proof. split; vm_compute; reflexivity. Qed.

Example mark_for_retry_first_failure :
  Job.mark_for_retry (rt := Sample.rt) (Sample.at_second 7)
    (Sample.at_second 7) "Exit code: 1" 2 Sample.job_a
  = Ok (Job.set_next_retry_at (Some "2025-01-01T00:00:09")
          (Job.set_state Job.failed
             (Job.set_updated_at "2025-01-01T00:00:07"
                (Job.set_error_message (Some "Exit code: 1")
                   (Job.set_attempts 1 Sample.job_a))))).
Proof. vm_compute. reflexivity. Qed.

(** ** The dead-letter retry *)

Lemma fetch_one_filter_In {A} (p : A -> bool) (l : list A) (r : A) :
  Database.fetch_one (List.filter p l) = Some r -> In r l /\ p r = true.
Proof.
  intros H. apply filter_In.
  destruct (List.filter p l) as [|x l'] eqn:E; [discriminate|].
  injection H as ->. now left.
Qed.

Lemma fetch_one_map {A B} (f : A -> B) (l : list A) :
  Database.fetch_one (map f l) = option_map f (Database.fetch_one l).
Proof. now destruct l. Qed.

Lemma has_id_true (k : string) (r : Job.t) :
  Database.has_id k r = true <-> Job.id r = k.
Proof. apply String.eqb_eq. Qed.

Lemma filter_update_same (k : string) (g : Job.t -> Job.t) (rows : list Job.t) :
  (forall r, Job.id (g r) = Job.id r) ->
  List.filter (Database.has_id k)
    (map (fun r => if Database.has_id k r then g r else r) rows)
  = map g (List.filter (Database.has_id k) rows).
Proof.
  intros Hg. induction rows as [|r rows IH]; simpl; [reflexivity|].
  destruct (Database.has_id k r) eqn:Hr; simpl.
  - unfold Database.has_id at 1. rewrite Hg. fold (Database.has_id k r).
    rewrite Hr. now f_equal.
  - now rewrite Hr.
Qed.

Lemma filter_update_other (k k' : string) (g : Job.t -> Job.t)
    (rows : list Job.t) :
  k' <> k ->
  (forall r, Job.id (g r) = Job.id r) ->
  List.filter (Database.has_id k')
    (map (fun r => if Database.has_id k r then g r else r) rows)
  = List.filter (Database.has_id k') rows.
Proof.
  intros Hk Hg. induction rows as [|r rows IH]; simpl; [reflexivity|].
  assert (Database.has_id k' (if Database.has_id k r then g r else r)
          = Database.has_id k' r) as E.
  { destruct (Database.has_id k r); [|reflexivity].
    unfold Database.has_id. now rewrite Hg. }
  rewrite E. destruct (Database.has_id k' r) eqn:Hr'; [|exact IH].
  assert (Database.has_id k r = false) as ->.
  { apply not_true_is_false. rewrite has_id_true.
    apply has_id_true in Hr'. congruence. }
  now rewrite IH.
Qed.

(** C4.  On a well-formed store, [retry_dlq_job] applied to the id of a dead
    job returns [True] and rewrites that row with [state = pending],
    [attempts = 0], no retry time and no error message, its [id], [command],
    [created_at], [started_at] and [completed_at] being kept and every other
    id reading as before; applied to an unknown id or to a job in another
    state it returns [False] and hands back the database untouched. *)
Theorem retry_dlq_job_spec {rt : Runtime} (env : Fresh) (now : datetime)
    (job_id : string) (db : Database.t) :
  wf_store (Database.jobs db) = true ->
  match lookup_job job_id db with
  | Some row =>
      if Job.State_eqb (Job.state row) Job.dead then
        exists row' db',
          QueueManager.retry_dlq_job env now job_id db = Ok (true, db')
          /\ lookup_job job_id db' = Some row'
          /\ Job.state row' = Job.pending
          /\ Job.attempts row' = 0
          /\ Job.next_retry_at row' = None
          /\ Job.error_message row' = None
          /\ Job.id row' = Job.id row
          /\ Job.command row' = Job.command row
          /\ Job.created_at row' = Job.created_at row
          /\ Job.started_at row' = Job.started_at row
          /\ Job.completed_at row' = Job.completed_at row
          /\ (forall other, other <> job_id ->
                lookup_job other db' = lookup_job other db)
      else QueueManager.retry_dlq_job env now job_id db = Ok (false, db)
  | None => QueueManager.retry_dlq_job env now job_id db = Ok (false, db)
  end.
Proof.
  intros Hwf. unfold QueueManager.retry_dlq_job, QueueManager.get_job.
  unfold lookup_job at 1.
  destruct (Database.fetch_one _) as [row|] eqn:Hrow; [|reflexivity].
  destruct (fetch_one_filter_In _ _ _ Hrow) as [Hin Hid].
  pose proof (wf_store_In _ _ Hwf Hin) as Hok.
  rewrite (from_db_row_ok env row Hok).
  destruct (Job.State_eqb (Job.state row) Job.dead); [|reflexivity].
  simpl negb. cbv iota.
  set (job := Job.set_updated_at _ _).
  assert (Job.id job = job_id) as Hjob by (now apply has_id_true in Hid).
  assert (existsb (Database.has_id job_id) (Database.jobs db) = true) as Hex.
  { apply existsb_exists. eauto. }
  assert (Database.bindable job = true) as Hb.
  { pose proof (row_ok_bindable _ Hok) as Hb. unfold Database.bindable in *.
    rewrite !andb_true_iff in *. subst job. simpl. intuition. }
  unfold QueueManager.update_job, Database.update_job_row.
  rewrite Hb, Hjob, Hex. cbn [negb].
  destruct (Job.command job) as [c|] eqn:Hc.
  2:{ exfalso. exact (row_ok_command _ Hok Hc). }
  eexists (Database.set_columns job row), _. split; [reflexivity|].
  repeat apply conj; try reflexivity.
  - unfold lookup_job. simpl.
    rewrite filter_update_same by reflexivity.
    rewrite fetch_one_map. now rewrite Hrow.
  - intros other Hother. unfold lookup_job. simpl.
    now rewrite (filter_update_other job_id other (Database.set_columns job)
                   _ Hother (fun _ => eq_refl)).
Qed.

Lemma retry_dlq_job_spec_witness :
  wf_store (Database.jobs Sample.mixed_store) = true
  /\ exists row' db',
       QueueManager.retry_dlq_job (rt := Sample.rt) Sample.env
         (Sample.at_second 20) "d" Sample.mixed_store = Ok (true, db')
       /\ lookup_job "d" db' = Some row'
       /\ Job.state row' = Job.pending
       /\ Job.attempts row' = 0
       /\ Job.next_retry_at row' = None
       /\ Job.error_message row' = None
       /\ Job.id row' = Job.id Sample.job_dead
       /\ Job.command row' = Job.command Sample.job_dead
       /\ Job.created_at row' = Job.created_at Sample.job_dead
       /\ Job.started_at row' = Job.started_at Sample.job_dead
       /\ Job.completed_at row' = Job.completed_at Sample.job_dead
       /\ (forall other, other <> "d" ->
             lookup_job other db' = lookup_job other Sample.mixed_store).
Proof.
  split; [reflexivity|].
  exact (retry_dlq_job_spec (rt := Sample.rt) Sample.env (Sample.at_second 20)
           "d" Sample.mixed_store eq_refl).
Defined.

Example retry_dlq_job_not_dead :
  QueueManager.retry_dlq_job (rt := Sample.rt) Sample.env (Sample.at_second 20)
    "e" Sample.mixed_store
  = Ok (false, Sample.mixed_store).
Proof. vm_compute. reflexivity. Qed.

(** ** Listing *)

Lemma wf_store_filter (p : Job.t -> bool) (rows : list Job.t) :
  wf_store rows = true -> wf_store (List.filter p rows) = true.
Proof.
  unfold wf_store. rewrite !forallb_forall. intros H r Hr.
  apply filter_In in Hr. now apply H.
Qed.

Lemma wf_store_perm (rows rows' : list Job.t) :
  Permutation rows' rows -> wf_store rows = true -> wf_store rows' = true.
Proof.
  unfold wf_store. rewrite !forallb_forall. intros HP H r Hr.
  apply H. exact (Permutation_in _ HP Hr).
Qed.

Lemma StronglySorted_weaken {A} (R R' : A -> A -> Prop) (P : A -> Prop)
    (l : list A) :
  (forall a b, P a -> P b -> R a b -> R' a b) ->
  Forall P l -> StronglySorted R l -> StronglySorted R' l.
Proof.
  intros HR HP HS. induction HS as [|a l HS IH Ha]; [constructor|].
  apply List.Forall_cons_iff in HP. destruct HP as [Pa Pl].
  constructor; [now apply IH|].
  rewrite List.Forall_forall in *. intros b Hb. apply HR; auto.
Qed.

Lemma filter_all {A} (l : list A) : List.filter (fun _ => true) l = l.
Proof. induction l as [|x l IH]; simpl; [reflexivity|]. now rewrite IH. Qed.

Section Listing.
Context {rt : Runtime}.

Lemma sorted_rows_listed (le : Job.t -> Job.t -> bool) (rows : list Job.t) :
  (forall a b, le a b = false -> le b a = true) ->
  (forall a b c, le a b = true -> le b c = true -> le a c = true) ->
  (forall a b, In a rows -> In b rows -> le a b = true -> listed_before a b) ->
  StronglySorted listed_before (Database.order_by le rows).
Proof.
  intros Htot Htrans Hle.
  eapply StronglySorted_weaken
    with (P := fun r => In r rows) (R := fun a b => le a b = true).
  - exact Hle.
  - apply List.Forall_forall. intros r Hr.
    exact (Permutation_in _ (order_by_perm le rows) Hr).
  - now apply order_by_sorted.
Qed.

(** C9 (as amended).  On a well-formed store, when the priority filter is
    absent or a 64-bit integer, [list_jobs] returns the rows that match the
    filters given, each once for each time it is stored, in an order in
    which priority never increases and, within one priority, [created_at]
    never increases; when the priority filter is outside the 64-bit range,
    binding it raises [OverflowError]. *)
Theorem list_jobs_spec (envs : nat -> Fresh) (state : option Job.State)
    (priority : option Z) (db : Database.t) :
  wf_store (Database.jobs db) = true ->
  if match priority with Some p => int64 p | None => true end
  then
    exists out,
      QueueManager.list_jobs envs state priority db = Ok out
      /\ Permutation out
           (List.filter (matches state priority) (Database.jobs db))
      /\ StronglySorted listed_before out
  else QueueManager.list_jobs envs state priority db = Raise OverflowError.
Proof.
  intros Hwf. unfold QueueManager.list_jobs.
  assert (forall le p,
            imap (fun i row => Job.from_db_row (envs i) row)
              (Database.order_by le (List.filter p (Database.jobs db)))
            = Database.order_by le (List.filter p (Database.jobs db)))
    as Himap.
  { intros le p. apply imap_from_db_row.
    eapply wf_store_perm; [apply order_by_perm|].
    now apply wf_store_filter. }
  destruct state as [s|], priority as [p|]; try destruct (int64 p);
    cbn [bind]; try reflexivity.
  - rewrite Himap. eexists. split; [reflexivity|]. split.
    + rewrite order_by_perm. reflexivity.
    + apply sorted_rows_listed;
        [apply le_list_total|apply le_list_trans|].
      intros a b _ _. apply le_list_true.
  - rewrite Himap. eexists. split; [reflexivity|]. split.
    + rewrite order_by_perm. erewrite filter_ext; [reflexivity|].
      intros r. unfold matches, QueueManager.is_state.
      now rewrite andb_true_r.
    + apply sorted_rows_listed;
        [apply le_list_total|apply le_list_trans|].
      intros a b _ _. apply le_list_true.
  - rewrite Himap. eexists. split; [reflexivity|]. split.
    + rewrite order_by_perm. reflexivity.
    + apply sorted_rows_listed;
        [apply le_created_total|apply le_created_trans|].
      intros a b Ha Hb Hab. apply filter_In in Ha, Hb.
      destruct Ha as [_ Ha]. destruct Hb as [_ Hb].
      apply Z.eqb_eq in Ha, Hb. right. split; [congruence|exact Hab].
  - specialize (Himap Database.le_priority_desc_created_desc (fun _ => true)).
    rewrite filter_all in Himap. rewrite Himap.
    eexists. split; [reflexivity|]. split.
    + rewrite order_by_perm. unfold matches. cbn.
      now rewrite filter_all.
    + apply sorted_rows_listed;
        [apply le_list_total|apply le_list_trans|].
      intros a b _ _. apply le_list_true.
Qed.

End Listing.

Lemma list_jobs_spec_witness :
  wf_store (Database.jobs Sample.mixed_store) = true
  /\ exists out,
       QueueManager.list_jobs (rt := Sample.rt) (fun _ => Sample.env) None
         (Some 5) Sample.mixed_store = Ok out
       /\ Permutation out
            (List.filter (matches None (Some 5))
               (Database.jobs Sample.mixed_store))
       /\ StronglySorted listed_before out.
Proof.
  split; [reflexivity|].
  exact (list_jobs_spec (rt := Sample.rt) (fun _ => Sample.env) None (Some 5)
           Sample.mixed_store eq_refl).
Defined.

(** Counterexample to C9 as worded: with the priority filter 2^63, which no
    stored job matches, [list_jobs] does not return the empty list: it
    raises. *)
Lemma list_jobs_priority_overflow :
  List.filter (matches None (Some (2 ^ 63))) (Database.jobs Sample.mixed_store)
  = []
  /\ QueueManager.list_jobs (rt := Sample.rt) (fun _ => Sample.env) None
       (Some (2 ^ 63)) Sample.mixed_store
     = Raise OverflowError.
Proof. split; vm_compute; reflexivity. Qed.

Example list_jobs_by_priority :
  QueueManager.list_jobs (rt := Sample.rt) (fun _ => Sample.env) None
    (Some 5) Sample.mixed_store
  = Ok [Sample.job_done; Sample.job_dead].
Proof. vm_compute. reflexivity. Qed.

(** ** Metrics *)

(** C8.  [get_metrics] reports as success rate the number of completed jobs
    over the number of jobs, times one hundred, and zero for an empty table;
    as average execution time the mean of the execution times that are set,
    and zero when none is. *)
Theorem get_metrics_spec (db : Database.t) :
  let rows := Database.jobs db in
  let completed := List.filter (QueueManager.is_state Job.completed) rows in
  (QueueManager.success_rate (QueueManager.get_metrics db)
   == match rows with
      | [] => 0
      | _ :: _ =>
          inject_Z (Z.of_nat (length completed))
          / inject_Z (Z.of_nat (length rows)) * 100
      end)%Q
  /\ (QueueManager.avg_execution_time (QueueManager.get_metrics db)
      == mean (omap Job.execution_time rows))%Q.
Proof.
  intros rows completed. unfold QueueManager.get_metrics. simpl. split.
  - unfold QueueManager.sql_count. rewrite filter_all.
    subst completed rows.
    destruct (Database.jobs db) as [|r rows']; [reflexivity|].
    destruct (Z.gtb_spec (Z.of_nat (length (r :: rows'))) 0) as [_|H];
      [reflexivity|simpl length in H; lia].
  - subst rows.
    destruct (omap Job.execution_time (Database.jobs db)) as [|x xs];
      [reflexivity|].
    unfold QueueManager.sql_avg, mean, QueueManager.sql_sum.
    destruct (Qeq_bool _ 0) eqn:E; [|reflexivity].
    symmetry. now apply Qeq_bool_eq.
Qed.

Example get_metrics_mixed :
  (QueueManager.success_rate (QueueManager.get_metrics Sample.mixed_store)
   == 100 # 3)%Q
  /\ (QueueManager.avg_execution_time
        (QueueManager.get_metrics Sample.mixed_store) == 3 # 2)%Q.
Proof. split; reflexivity. Qed.

(** ** The success transition *)

Section Success.
Context {rt : Runtime}.

Lemma mark_completed_total (now : datetime) (out : option string)
    (job : Job.t) :
  stamps_readable now job ->
  exists job',
    Job.mark_completed now out job = Ok job'
    /\ Job.state job' = Job.completed
    /\ Job.output job' = out
    /\ Job.completed_at job' = Some (isoformat now)
    /\ Job.id job' = Job.id job
    /\ Job.command job' = Job.command job
    /\ Database.bindable job' = Database.bindable job.
Proof.
  intros Hr. unfold Job.mark_completed. simpl.
  destruct (Job.started_at job) as [s|] eqn:Hs; [|eexists; repeat split].
  destruct (truthy s) eqn:Ht; [|eexists; repeat split].
  destruct (Hr s Hs Ht) as (start & stop & -> & ->).
  eexists; repeat split.
Qed.

(** C5 (as amended).  When the subprocess exits with code 0 and its output
    decodes as text, the log file of the job can be opened, [started_at] is
    unset or the text of a time without zone, and the integer fields are
    64-bit, [process_job] stores the job with [state = completed], the
    first 500 characters of the captured stdout as [output], the clock
    reading as [completed_at], and as [execution_time] the time the worker
    measured around the subprocess. *)
Theorem process_job_success (clk : Worker.clocks) (stdout stderr : string)
    (job : Job.t) (files : gmap string string) (db : Database.t) :
  log_file_error (Job.id job) = None ->
  stamps_readable (Worker.utcnow_done clk) job ->
  Job.command job <> None ->
  Database.bindable job = true ->
  exists job' db',
    snd (Worker.process_job clk (Worker.Exited 0 stdout stderr) job files db)
    = Ok (job', db')
    /\ QueueManager.update_job job' db = Ok db'
    /\ Job.state job' = Job.completed
    /\ Job.output job' = Some (take_chars 500 stdout)
    /\ Job.completed_at job' = Some (isoformat (Worker.utcnow_done clk))
    /\ Job.execution_time job'
       = Some (Worker.time_end clk - Worker.time_start clk)%Q.
Proof.
  intros Hl Hr Hc Hb. unfold Worker.process_job, QueueManager.save_job_output.
  rewrite Hl. cbn [snd].
  unfold Worker.apply_result.
  cbn [Worker.execute_command Worker.success Worker.output Z.eqb].
  destruct (mark_completed_total (Worker.utcnow_done clk)
              (Some (take_chars 500 stdout)) job Hr)
    as (j1 & -> & Hs & Ho & Hd & _ & Hcmd & Hb1).
  cbn [bind].
  set (job' := Job.set_execution_time _ j1).
  destruct (update_job_total job' db) as [db' Hdb'].
  { subst job'. simpl. congruence. }
  { subst job'. rewrite <- Hb, <- Hb1. reflexivity. }
  exists job', db'. rewrite Hdb'. simpl. repeat split; assumption.
Qed.

End Success.

Lemma process_job_success_witness :
  log_file_error (Runtime := Sample.rt) (Job.id Sample.job_claimed) = None
  /\ stamps_readable (rt := Sample.rt) (Worker.utcnow_done Sample.clk)
       Sample.job_claimed
  /\ Job.command Sample.job_claimed <> None
  /\ Database.bindable Sample.job_claimed = true
  /\ exists job' db',
       snd (Worker.process_job (rt := Sample.rt) Sample.clk
              (Worker.Exited 0 "hi" "") Sample.job_claimed ∅
              Sample.claimed_store)
       = Ok (job', db')
       /\ QueueManager.update_job job' Sample.claimed_store = Ok db'
       /\ Job.state job' = Job.completed
       /\ Job.output job' = Some (take_chars 500 "hi")
       /\ Job.completed_at job'
          = Some (isoformat (Runtime := Sample.rt)
                    (Worker.utcnow_done Sample.clk))
       /\ Job.execution_time job'
          = Some (Worker.time_end Sample.clk - Worker.time_start Sample.clk)%Q.
Proof.
  assert (stamps_readable (rt := Sample.rt) (Worker.utcnow_done Sample.clk)
            Sample.job_claimed) as Hr.
  { intros s [= <-] _. eexists _, _. split; vm_compute; reflexivity. }
  assert (Job.command Sample.job_claimed <> None) as Hc by discriminate.
  split; [reflexivity|]. split; [exact Hr|]. split; [exact Hc|].
  split; [reflexivity|].
  exact (process_job_success (rt := Sample.rt) Sample.clk "hi" ""
           Sample.job_claimed ∅ Sample.claimed_store eq_refl Hr Hc eq_refl).
Defined.

(** Counterexample to C5 as worded: the subprocess of a claimed job runs for
    one second; the stored execution time is that second, while
    [completed_at] lies 1.3 s after [started_at]. *)
Lemma execution_time_is_not_stamp_difference :
  match snd (Worker.process_job (rt := Sample.rt) Sample.clk
               (Worker.Exited 0 "hi" "") Sample.job_claimed ∅
               Sample.claimed_store) with
  | Ok (job', _) =>
      match Job.started_at job', Job.completed_at job',
            Job.execution_time job' with
      | Some s, Some c, Some x =>
          match fromisoformat (Runtime := Sample.rt) s,
                fromisoformat (Runtime := Sample.rt) c with
          | Some ts, Some tc =>
              (x == 1)%Q
              /\ (total_seconds (instant tc - instant ts) == 13 # 10)%Q
              /\ ~ (x == total_seconds (instant tc - instant ts))%Q
          | _, _ => False
          end
      | _, _, _ => False
      end
  | Raise _ => False
  end.
Proof.
  vm_compute. split; [reflexivity|]. split; [reflexivity|]. discriminate.
Qed.

(** ** The retry state machine *)

Section RetryMachine.
Context {rt : Runtime}.

Lemma mark_completed_attempts (now : datetime) (out : option string)
    (j j' : Job.t) :
  Job.mark_completed now out j = Ok j' ->
  Job.state j' = Job.completed
  /\ Job.attempts j' = Job.attempts j
  /\ Job.max_retries j' = Job.max_retries j.
Proof.
  unfold Job.mark_completed. simpl.
  destruct (Job.started_at j) as [s|]; [|intros [= <-]; auto].
  destruct (truthy s); [|intros [= <-]; auto].
  destruct (fromisoformat s); [|discriminate].
  destruct (fromisoformat (isoformat now)); [|discriminate].
  destruct (datetime_sub _ _); [|discriminate].
  intros [= <-]. auto.
Qed.

Lemma mark_for_retry_inv (now_u now_r : datetime) (e : string) (B : Z)
    (j j' : Job.t) :
  Job.attempts j < Job.max_retries j ->
  Job.mark_for_retry now_u now_r e B j = Ok j' ->
  attempts_inv j'.
Proof.
  intros H. unfold attempts_inv, Job.mark_for_retry, Job.should_retry. simpl.
  destruct (Z.ltb_spec (Job.attempts j + 1) (Job.max_retries j)).
  - destruct (timedelta_seconds _) as [d|]; [|discriminate]. cbn [bind].
    destruct (datetime_add _ _) as [r|]; [|discriminate].
    intros [= <-]. simpl. assumption.
  - intros [= <-]. simpl. split; [lia|reflexivity].
Qed.

Lemma step_keeps_inv (j j' : Job.t) :
  step j j' -> attempts_inv j -> attempts_inv j'.
Proof.
  intros [now now_p j1 Hc | clk timeout o db j1 j2 Hs Hr] Hinv.
  - unfold QueueManager.claimable, QueueManager.is_state in Hc.
    unfold attempts_inv in *. simpl.
    destruct (Job.state j1); simpl in Hc; try discriminate; exact Hinv.
  - unfold attempts_inv in Hinv. rewrite Hs in Hinv.
    unfold Worker.apply_result in Hr.
    destruct (Worker.success _).
    + destruct (Job.mark_completed _ _ j1) as [j3|] eqn:E; [|discriminate].
      apply mark_completed_attempts in E. destruct E as (E1 & E2 & E3).
      injection Hr as <-. unfold attempts_inv. simpl.
      rewrite E1, E2, E3. exact Hinv.
    + destruct (Config.to_int _) as [B|]; [|discriminate].
      cbn [bind] in Hr. exact (mark_for_retry_inv _ _ _ _ _ _ Hinv Hr).
Qed.

Lemma rtc_keeps_inv (j j' : Job.t) :
  rtc step j j' -> attempts_inv j -> attempts_inv j'.
Proof.
  induction 1 as [|j1 j2 j3 H12 _ IH]; [auto|].
  intros H. apply IH. exact (step_keeps_inv _ _ H12 H).
Qed.

(** C3 (as amended).  For a job enqueued with [max_retries] at least 1,
    every job reached through claims and processing outcomes has
    [attempts <= max_retries], and a dead one has
    [attempts = max_retries] and no retry time. *)
Theorem attempts_within_max_retries (j0 j : Job.t) :
  1 <= Job.max_retries j0 ->
  enqueued j0 ->
  rtc step j0 j ->
  Job.attempts j <= Job.max_retries j
  /\ (Job.state j = Job.dead ->
      Job.attempts j = Job.max_retries j /\ Job.next_retry_at j = None).
Proof.
  intros Hm (Hs & Ha & _) Hreach.
  assert (attempts_inv j) as Hinv.
  { apply (rtc_keeps_inv _ _ Hreach). unfold attempts_inv.
    rewrite Hs, Ha. lia. }
  unfold attempts_inv in Hinv.
  destruct (Job.state j); split; try discriminate; try lia; auto.
Qed.

End RetryMachine.

Lemma sample_run (j0 claimed failed : Job.t) :
  QueueManager.claimable
    (isoformat (Runtime := Sample.rt) (Sample.at_second 3)) j0 = true ->
  claimed = Job.mark_processing (rt := Sample.rt) (Sample.at_second 3) j0 ->
  Worker.apply_result (rt := Sample.rt) Sample.clk
    (Worker.execute_command 300 (Worker.Exited 1 "" ""))
    Sample.claimed_store claimed = Ok failed ->
  rtc (step (rt := Sample.rt)) j0 failed.
Proof.
  intros Hc -> Hr.
  eapply rtc_l; [exact (step_claim _ (Sample.at_second 3) j0 Hc)|].
  eapply rtc_l; [|apply rtc_refl].
  exact (step_result Sample.clk 300 (Worker.Exited 1 "" "")
           Sample.claimed_store
           (Job.mark_processing (rt := Sample.rt) (Sample.at_second 3) j0)
           failed eq_refl Hr).
Qed.

Lemma attempts_within_max_retries_witness :
  1 <= Job.max_retries Sample.job_a
  /\ enqueued Sample.job_a
  /\ rtc (step (rt := Sample.rt)) Sample.job_a Sample.job_a_failed
  /\ Job.attempts Sample.job_a_failed <= Job.max_retries Sample.job_a_failed
  /\ (Job.state Sample.job_a_failed = Job.dead ->
      Job.attempts Sample.job_a_failed = Job.max_retries Sample.job_a_failed
      /\ Job.next_retry_at Sample.job_a_failed = None).
Proof.
  assert (1 <= Job.max_retries Sample.job_a) as Hm by (vm_compute; discriminate).
  assert (enqueued Sample.job_a) as He by (repeat split).
  assert (rtc (step (rt := Sample.rt)) Sample.job_a Sample.job_a_failed) as Hr.
  { apply (sample_run _ Sample.job_claimed); vm_compute; reflexivity. }
  split; [exact Hm|]. split; [exact He|]. split; [exact Hr|].
  exact (attempts_within_max_retries (rt := Sample.rt) _ _ Hm He Hr).
Defined.

(** Counterexample to C3 as worded: a job enqueued with [max_retries = 0] is
    claimed, fails once, and is dead with [attempts = 1]. *)
Lemma attempts_exceed_zero_max_retries :
  0 <= Job.max_retries Sample.job_zero
  /\ enqueued Sample.job_zero
  /\ rtc (step (rt := Sample.rt)) Sample.job_zero Sample.job_zero_failed
  /\ Job.state Sample.job_zero_failed = Job.dead
  /\ ~ Job.attempts Sample.job_zero_failed
       <= Job.max_retries Sample.job_zero_failed.
Proof.
  split; [vm_compute; discriminate|].
  split; [repeat split|].
  split; [apply (sample_run _ Sample.job_zero_claimed); vm_compute; reflexivity|].
  split; [reflexivity|].
  vm_compute. intros H. apply H. reflexivity.
Qed.

(** ** The enqueue command *)

Lemma init_defaults_jobs (db : Database.t) :
  Database.jobs (Config._init_defaults db) = Database.jobs db.
Proof.
  unfold Config._init_defaults.
  generalize Config.DEFAULTS. intros l. revert db.
  induction l as [|kv l IH]; intros db; simpl; [reflexivity|].
  rewrite IH. now destruct (Database.config db !! fst kv).
Qed.

Section EnqueueCommand.
Context {rt : Runtime}.

Lemma enqueue_data_null_command (env : Fresh) (data : Job.dict)
    (db : Database.t) :
  Job.k_command data = Some None ->
  exists e, Cli.enqueue_data env data db
            = (Cli.ErrorException e, Config._init_defaults db).
Proof.
  intros Hc. unfold Cli.enqueue_data.
  assert (forall d, Job.k_command d = Some None ->
            exists e, QueueManager.enqueue (Job.from_dict env d)
                        (Config._init_defaults db) = Raise e) as Hins.
  { intros d Hd. unfold QueueManager.enqueue, Database.insert_job.
    destruct (negb _); [eauto|].
    destruct (existsb _ _); [eauto|].
    unfold Job.from_dict, Job.__init__. simpl. rewrite Hd. simpl. eauto. }
  destruct (Job.k_max_retries data).
  - destruct (Hins data Hc) as [e ->]. eauto.
  - destruct (Config.to_int _) as [n|e]; simpl; [|eauto].
    destruct (Hins (Cli.set_max_retries n data) Hc) as [e ->]. eauto.
Qed.

(** C7 (as amended).  The enqueue command turns away a request whose
    argument is not JSON, whose JSON object has no [command] member or a
    null one, or that brings neither a JSON argument nor a non-empty
    [--command]: it reports an error and the [jobs] table is as before. *)
Theorem enqueue_turns_away (env : Fresh) (job_data : option Cli.json)
    (command job_id : option string) (max_retries : option Z)
    (priority timeout : Z) (run_at : option string) (db : Database.t) :
  turned_away job_data command ->
  (forall job,
      fst (Cli.enqueue env job_data command job_id max_retries priority
             timeout run_at db) <> Cli.Enqueued job)
  /\ Database.jobs
       (snd (Cli.enqueue env job_data command job_id max_retries priority
               timeout run_at db))
     = Database.jobs db.
Proof.
  intros [c | data c Hd | data c Hd | c Hc]; unfold Cli.enqueue.
  - split; [discriminate|reflexivity].
  - rewrite Hd. split; [discriminate|reflexivity].
  - rewrite Hd. destruct (enqueue_data_null_command env data db Hd) as [e ->].
    split; [discriminate|]. simpl. apply init_defaults_jobs.
  - destruct c as [s|]; simpl in Hc; [rewrite Hc|];
      (split; [discriminate|reflexivity]).
Qed.

End EnqueueCommand.

Lemma enqueue_turns_away_witness :
  turned_away (Some (Cli.Object Sample.no_command)) None
  /\ (forall job,
         fst (Cli.enqueue (rt := Sample.rt) Sample.env
                (Some (Cli.Object Sample.no_command)) None None None 0 300
                None Sample.tie_store) <> Cli.Enqueued job)
  /\ Database.jobs
       (snd (Cli.enqueue (rt := Sample.rt) Sample.env
               (Some (Cli.Object Sample.no_command)) None None None 0 300
               None Sample.tie_store))
     = Database.jobs Sample.tie_store.
Proof.
  assert (turned_away (Some (Cli.Object Sample.no_command)) None) as H
    by (now apply away_no_command).
  split; [exact H|].
  exact (enqueue_turns_away (rt := Sample.rt) Sample.env _ None None None 0 300
           None Sample.tie_store H).
Defined.

(** Counterexample to C7 as worded: a JSON object whose [command] is the
    empty string is accepted, and a job with that command is stored. *)
Lemma enqueue_accepts_empty_command :
  match Cli.enqueue (rt := Sample.rt) Sample.env
          (Some (Cli.Object Sample.empty_command)) None None None 0 300 None
          (Sample.store []) with
  | (Cli.Enqueued job, db') =>
      Job.command job = Some ""
      /\ Database.jobs db' = [job]
      /\ Database.jobs (Sample.store []) = []
  | _ => False
  end.
Proof. vm_compute. repeat split. Qed.

(** ** Stores stay well formed

    Every operation that writes the [jobs] table takes a well-formed store to
    a well-formed store, provided the clock prints as a non-empty stamp and
    the UUID is not empty.  The stores the properties above range over are
    therefore the ones the package can produce. *)

Lemma wf_store_app (rows rows' : list Job.t) :
  wf_store (rows ++ rows') = wf_store rows && wf_store rows'.
Proof. apply forallb_app. Qed.

Lemma update_job_row_wf (job : Job.t) (db db' : Database.t) :
  wf_store (Database.jobs db) = true ->
  truthy (Job.updated_at job) = true ->
  Database.update_job_row job db = Ok db' ->
  wf_store (Database.jobs db') = true.
Proof.
  intros Hwf Hu. unfold Database.update_job_row.
  destruct (Database.bindable job) eqn:Hb; [|discriminate]. cbn [negb].
  destruct (existsb _ _); [|now intros [= <-]].
  destruct (Job.command job) as [c|] eqn:Hc; [|discriminate].
  intros [= <-]. simpl. unfold wf_store in *.
  rewrite forallb_forall in *. intros r Hr.
  apply in_map_iff in Hr. destruct Hr as (row & <- & Hrow).
  specialize (Hwf row Hrow). destruct (Database.has_id _ row); [|exact Hwf].
  unfold row_ok, Database.bindable in *. simpl. rewrite Hu, Hc.
  rewrite !andb_true_iff in *. tauto.
Qed.

Lemma insert_job_wf (job : Job.t) (db db' : Database.t) :
  wf_store (Database.jobs db) = true ->
  truthy (Job.id job) = true ->
  truthy (Job.created_at job) = true ->
  truthy (Job.updated_at job) = true ->
  Database.insert_job job db = Ok db' ->
  wf_store (Database.jobs db') = true.
Proof.
  intros Hwf Hi Hc Hu. unfold Database.insert_job.
  destruct (Database.bindable job) eqn:Hb; [|discriminate]. cbn [negb].
  destruct (existsb _ _); [discriminate|].
  destruct (Job.command job) as [c|] eqn:Hcmd; [|discriminate].
  intros [= <-]. simpl. rewrite wf_store_app, Hwf. simpl.
  unfold row_ok. now rewrite Hi, Hc, Hu, Hcmd, Hb.
Qed.

Section WellFormedStores.
Context {rt : Runtime}.
Hypothesis isoformat_truthy : forall t, truthy (isoformat t) = true.

Lemma get_next_job_wf (env : Fresh) (now now_p : datetime)
    (db db' : Database.t) (job : option Job.t) :
  wf_store (Database.jobs db) = true ->
  QueueManager.get_next_job env now now_p db = Ok (job, db') ->
  wf_store (Database.jobs db') = true.
Proof.
  intros Hwf. unfold QueueManager.get_next_job.
  destruct (Database.fetch_one _) as [row|]; [|now intros [= _ <-]].
  destruct (QueueManager.update_job _ db) as [db1|] eqn:E; [|discriminate].
  intros [= _ <-]. eapply update_job_row_wf; [exact Hwf| |exact E].
  apply isoformat_truthy.
Qed.

Lemma retry_dlq_job_wf (env : Fresh) (now : datetime) (job_id : string)
    (db db' : Database.t) (b : bool) :
  wf_store (Database.jobs db) = true ->
  QueueManager.retry_dlq_job env now job_id db = Ok (b, db') ->
  wf_store (Database.jobs db') = true.
Proof.
  intros Hwf. unfold QueueManager.retry_dlq_job.
  destruct (QueueManager.get_job _ _ _) as [job|]; [|now intros [= _ <-]].
  destruct (negb _); [now intros [= _ <-]|].
  destruct (QueueManager.update_job _ db) as [db1|] eqn:E; [|discriminate].
  intros [= _ <-]. eapply update_job_row_wf; [exact Hwf| |exact E].
  apply isoformat_truthy.
Qed.

Lemma apply_result_updated_at (clk : Worker.clocks) (res : Worker.cmd_result)
    (db : Database.t) (job job' : Job.t) :
  Worker.apply_result clk res db job = Ok job' ->
  truthy (Job.updated_at job') = true.
Proof.
  unfold Worker.apply_result. destruct (Worker.success res).
  - unfold Job.mark_completed. simpl.
    destruct (Job.started_at job) as [s|];
      [|intros [= <-]; apply isoformat_truthy].
    destruct (truthy s); [|intros [= <-]; apply isoformat_truthy].
    destruct (fromisoformat s); [|discriminate].
    destruct (fromisoformat (isoformat _)); [|discriminate].
    destruct (datetime_sub _ _); [|discriminate].
    intros [= <-]. apply isoformat_truthy.
  - destruct (Config.to_int _) as [B|]; [|discriminate].
    cbn [bind]. unfold Job.mark_for_retry.
    destruct (Job.should_retry _).
    + destruct (timedelta_seconds _) as [d|]; [|discriminate]. cbn [bind].
      destruct (datetime_add _ _) as [r|]; [|discriminate].
      intros [= <-]. apply isoformat_truthy.
    + intros [= <-]. apply isoformat_truthy.
Qed.

Lemma process_job_wf (clk : Worker.clocks) (o : Worker.run_outcome)
    (job job' : Job.t) (files : gmap string string) (db db' : Database.t) :
  wf_store (Database.jobs db) = true ->
  snd (Worker.process_job clk o job files db) = Ok (job', db') ->
  wf_store (Database.jobs db') = true.
Proof.
  intros Hwf. unfold Worker.process_job.
  destruct (QueueManager.save_job_output _ _ _ _ _) as [files'|];
    [|discriminate].
  cbn [snd].
  destruct (Worker.apply_result _ _ _ _) as [j1|] eqn:E1; [|discriminate].
  cbn [bind].
  destruct (QueueManager.update_job j1 db) as [db1|] eqn:E2; [|discriminate].
  intros [= _ <-]. eapply update_job_row_wf; [exact Hwf| |exact E2].
  exact (apply_result_updated_at _ _ _ _ _ E1).
Qed.

Lemma cli_enqueue_wf (env : Fresh) (job_data : option Cli.json)
    (command job_id : option string) (max_retries : option Z)
    (priority timeout : Z) (run_at : option string) (db : Database.t) :
  truthy (uuid4 env) = true ->
  wf_store (Database.jobs db) = true ->
  wf_store
    (Database.jobs
       (snd (Cli.enqueue env job_data command job_id max_retries priority
               timeout run_at db))) = true.
Proof.
  intros Hu Hwf.
  assert (forall o d, truthy d = true -> truthy (or_else o d) = true) as Hor.
  { intros [s|] d Hd; simpl; [|exact Hd]. now destruct (truthy s) eqn:E. }
  assert (forall data,
            wf_store (Database.jobs (snd (Cli.enqueue_data env data db)))
            = true) as Hdata.
  { intros data. unfold Cli.enqueue_data.
    destruct (match Job.k_max_retries data with
              | Some _ => Ok data
              | None => _
              end) as [d|e]; simpl; [|now rewrite init_defaults_jobs].
    unfold QueueManager.enqueue.
    destruct (Database.insert_job _ _) as [db1|] eqn:E; simpl;
      [|now rewrite init_defaults_jobs].
    eapply insert_job_wf; [| | | |exact E].
    - now rewrite init_defaults_jobs.
    - apply Hor, Hu.
    - apply Hor, isoformat_truthy.
    - apply Hor, isoformat_truthy. }
  unfold Cli.enqueue.
  destruct job_data as [[|data]|]; simpl; try exact Hwf.
  - destruct (Job.k_command data); [apply Hdata|exact Hwf].
  - destruct command as [c|]; [|exact Hwf].
    destruct (truthy c); [|exact Hwf]. simpl. apply Hdata.
Qed.

End WellFormedStores.

(** * Further properties of the code *)

(** ** Jobs *)

Section JobFacts.
Context {rt : Runtime}.

(** X1.  Whatever dictionary [from_dict] is given, the job it builds goes
    through [to_dict] and [from_dict] unchanged, under any later clock and
    UUID, as long as UUIDs and printed stamps are not empty. *)
Theorem from_dict_builds_round_trip (env env' : Fresh) (data : Job.dict) :
  truthy (uuid4 env) = true ->
  truthy (isoformat (utcnow_created env)) = true ->
  truthy (isoformat (utcnow_updated env)) = true ->
  Job.from_dict env' (Job.to_dict (Job.from_dict env data))
  = Job.from_dict env data.
Proof.
  intros Hu Hc Hp.
  assert (forall o d, truthy d = true -> truthy (or_else o d) = true) as Hor.
  { intros [s|] d Hd; simpl; [|exact Hd]. now destruct (truthy s) eqn:E. }
  set (j := Job.from_dict env data).
  assert (truthy (Job.id j) = true) as Hi by (apply Hor, Hu).
  assert (truthy (Job.created_at j) = true) as Hca by (apply Hor, Hc).
  assert (truthy (Job.updated_at j) = true) as Hua by (apply Hor, Hp).
  destruct j as [i c s a m ca ua nr em o p t r sa co et]. simpl in *.
  unfold Job.from_dict, Job.to_dict, Job.__init__. simpl.
  now rewrite Hi, Hca, Hua.
Qed.

(** X2.  [is_ready_to_run] and the scheduling condition of the claim query,
    [run_at IS NULL OR run_at <= now], agree on every job and every clock
    reading; an empty [run_at] counts as elapsed in both. *)
Theorem is_ready_to_run_agrees_with_claim (now : datetime) (j : Job.t) :
  Job.is_ready_to_run now j
  = Database.null_or_le (Job.run_at j) (isoformat now).
Proof.
  unfold Job.is_ready_to_run, Database.null_or_le.
  destruct (Job.run_at j) as [s|]; simpl; [|reflexivity].
  unfold truthy. destruct (String.eqb_spec s "") as [->|_]; simpl;
    [|reflexivity].
  now destruct (isoformat now).
Qed.

End JobFacts.

Lemma take_chars_length (n : nat) (s : string) :
  String.length (take_chars n s) = Nat.min n (String.length s).
Proof.
  revert s. induction n as [|n IH]; intros [|c s]; simpl; auto.
Qed.

Lemma take_chars_prefix (n : nat) (s : string) :
  String.prefix (take_chars n s) s = true.
Proof.
  revert s. induction n as [|n IH]; intros [|c s]; simpl; auto.
  rewrite IH. now destruct (ascii_dec c c).
Qed.

Lemma take_chars_all (n : nat) (s : string) :
  (String.length s <= n)%nat -> take_chars n s = s.
Proof.
  revert s. induction n as [|n IH]; intros [|c s]; simpl; auto; try lia.
  intros H. f_equal. apply IH. lia.
Qed.

(** ** Job histories *)

Section Histories.
Context {rt : Runtime}.

Lemma mark_completed_fields (now : datetime) (out : option string)
    (j j' : Job.t) :
  Job.mark_completed now out j = Ok j' ->
  same_identity j j'
  /\ Job.state j' = Job.completed
  /\ Job.attempts j' = Job.attempts j
  /\ Job.completed_at j' = Some (isoformat now)
  /\ Job.started_at j' = Job.started_at j
  /\ Job.next_retry_at j' = Job.next_retry_at j
  /\ Job.error_message j' = Job.error_message j
  /\ Job.output j' = out.
Proof.
  unfold Job.mark_completed, same_identity. simpl.
  destruct (Job.started_at j) as [s|] eqn:Hs.
  - destruct (truthy s).
    + destruct (fromisoformat s); [|discriminate].
      destruct (fromisoformat (isoformat now)); [|discriminate].
      destruct (datetime_sub _ _); [|discriminate].
      intros [= <-]. simpl. rewrite Hs. repeat split.
    + intros [= <-]. simpl. rewrite Hs. repeat split.
  - intros [= <-]. simpl. rewrite Hs. repeat split.
Qed.

Lemma mark_for_retry_fields (now_u now_r : datetime) (e : string) (B : Z)
    (j j' : Job.t) :
  Job.mark_for_retry now_u now_r e B j = Ok j' ->
  same_identity j j'
  /\ Job.attempts j' = Job.attempts j + 1
  /\ Job.error_message j' = Some e
  /\ Job.output j' = Job.output j
  /\ Job.completed_at j' = Job.completed_at j
  /\ Job.execution_time j' = Job.execution_time j
  /\ Job.started_at j' = Job.started_at j.
Proof.
  unfold Job.mark_for_retry, same_identity.
  destruct (Job.should_retry _).
  - destruct (timedelta_seconds _) as [d|]; [|discriminate]. cbn [bind].
    destruct (datetime_add _ _) as [r|]; [|discriminate].
    intros [= <-]. simpl. repeat split.
  - intros [= <-]. simpl. repeat split.
Qed.

Lemma step_same_identity (j j' : Job.t) :
  step j j' -> same_identity j j' /\ Job.attempts j <= Job.attempts j'.
Proof.
  intros [now now_p j1 _ | clk timeout o db j1 j2 _ Hr].
  - unfold same_identity. simpl. repeat split. lia.
  - unfold Worker.apply_result in Hr. destruct (Worker.success _).
    + destruct (Job.mark_completed _ _ j1) as [j3|] eqn:E; [|discriminate].
      injection Hr as <-.
      destruct (mark_completed_fields _ _ _ _ E) as (Hid & _ & Ha & _).
      unfold same_identity in *. simpl. split; [exact Hid|lia].
    + destruct (Config.to_int _) as [B|]; [|discriminate].
      cbn [bind] in Hr.
      destruct (mark_for_retry_fields _ _ _ _ _ _ Hr) as (Hid & Ha & _).
      split; [exact Hid|lia].
Qed.

(** X4.  Through any sequence of claims and processing outcomes a job keeps
    its [id], [command], [created_at], [max_retries], [priority], [timeout]
    and [run_at], and its [attempts] never goes down. *)
Theorem history_keeps_identity (j j' : Job.t) :
  rtc step j j' -> same_identity j j' /\ Job.attempts j <= Job.attempts j'.
Proof.
  induction 1 as [j|j1 j2 j3 H12 _ IH].
  - unfold same_identity. repeat split. lia.
  - destruct (step_same_identity _ _ H12) as [H1 Ha].
    destruct IH as [H2 Hb]. unfold same_identity in *.
    split; [|lia]. intuition congruence.
Qed.

Lemma step_keeps_history_inv (j j' : Job.t) :
  step j j' -> history_inv j -> history_inv j'.
Proof.
  intros [now now_p j1 Hc | clk timeout o db j1 j2 Hs Hr] Hinv.
  - unfold QueueManager.claimable, QueueManager.is_state in Hc.
    unfold history_inv in *. simpl.
    destruct (Job.state j1); simpl in Hc; try discriminate;
      (split; [lia|discriminate]).
  - unfold history_inv in Hinv. rewrite Hs in Hinv. destruct Hinv as [Ha _].
    unfold Worker.apply_result in Hr. destruct (Worker.success _).
    + destruct (Job.mark_completed _ _ j1) as [j3|] eqn:E; [|discriminate].
      injection Hr as <-.
      destruct (mark_completed_fields _ _ _ _ E)
        as ((_ & _ & _ & Hm & _) & Hst & Hat & Hco & _).
      unfold history_inv. simpl. rewrite Hst, Hat, Hm, Hco.
      repeat split; try lia; discriminate.
    + destruct (Config.to_int _) as [B|]; [|discriminate].
      cbn [bind] in Hr. revert Hr.
      unfold history_inv, Job.mark_for_retry, Job.should_retry. simpl.
      destruct (Z.ltb_spec (Job.attempts j1 + 1) (Job.max_retries j1)).
      * destruct (timedelta_seconds _) as [d|]; [|discriminate]. cbn [bind].
        destruct (datetime_add _ _) as [r|]; [|discriminate].
        intros [= <-]. simpl. split; [lia|discriminate].
      * intros [= <-]. simpl. split; [lia|reflexivity].
Qed.

(** X5.  For a job enqueued with any [max_retries], also zero or negative,
    every state reached through claims and processing outcomes satisfies
    [history_inv]: in particular a dead job has been tried exactly
    [max (1, max_retries)] times and has no retry time, a failed job has
    attempts left and a retry time, a processing job has a start time, and
    a completed job has a completion time and an execution time. *)
Theorem history_invariant (j0 j : Job.t) :
  enqueued j0 -> rtc step j0 j -> history_inv j.
Proof.
  intros (Hs & Ha & _) Hreach.
  assert (history_inv j0) as H0 by (unfold history_inv; now rewrite Hs).
  clear Hs Ha. induction Hreach as [|j1 j2 j3 H12 _ IH]; [exact H0|].
  apply IH. exact (step_keeps_history_inv _ _ H12 H0).
Qed.

End Histories.

(** ** Rows and ids *)

Lemma lookup_unique (rows : list Job.t) (row : Job.t) :
  unique_ids rows -> In row rows ->
  Database.fetch_one (List.filter (Database.has_id (Job.id row)) rows)
  = Some row.
Proof.
  unfold unique_ids. induction rows as [|r rows IH]; simpl; [tauto|].
  intros Hnd [->|Hin].
  - unfold Database.has_id at 1. now rewrite String.eqb_refl.
  - inversion Hnd as [|? ? Hr Hnd']; subst.
    destruct (Database.has_id (Job.id row) r) eqn:E; [|now apply IH].
    exfalso. apply has_id_true in E. apply Hr. rewrite E.
    now apply in_map.
Qed.

Lemma update_job_row_jobs (job : Job.t) (db db' : Database.t) :
  Database.update_job_row job db = Ok db' ->
  Database.jobs db'
  = map (fun row => if Database.has_id (Job.id job) row
                    then Database.set_columns job row else row)
        (Database.jobs db)
  /\ Database.config db' = Database.config db.
Proof.
  unfold Database.update_job_row.
  destruct (negb _); [discriminate|].
  destruct (existsb _ _) eqn:E.
  - destruct (Job.command job); [|discriminate]. now intros [= <-].
  - intros [= <-]. split; [|reflexivity].
    rewrite <- (map_id (Database.jobs db)) at 1.
    apply map_ext_in. intros r Hr.
    destruct (Database.has_id (Job.id job) r) eqn:Hid; [|reflexivity].
    assert (existsb (Database.has_id (Job.id job)) (Database.jobs db) = true)
      by (apply existsb_exists; eauto).
    congruence.
Qed.

Lemma update_job_row_frame (job : Job.t) (db db' : Database.t) :
  Database.update_job_row job db = Ok db' ->
  map Job.id (Database.jobs db') = map Job.id (Database.jobs db)
  /\ map Job.created_at (Database.jobs db')
     = map Job.created_at (Database.jobs db)
  /\ Database.config db' = Database.config db.
Proof.
  intros H. apply update_job_row_jobs in H. destruct H as [-> ->].
  rewrite !map_map. repeat split; apply map_ext; intros r;
    now destruct (Database.has_id (Job.id job) r).
Qed.

(** X6.  [update_job] never adds, removes or reorders rows, never changes
    the [id] or the [created_at] of a row, and never touches the [config]
    table, whatever job it is given. *)
Theorem update_job_keeps_rows (job : Job.t) (db db' : Database.t) :
  QueueManager.update_job job db = Ok db' ->
  map Job.id (Database.jobs db') = map Job.id (Database.jobs db)
  /\ map Job.created_at (Database.jobs db')
     = map Job.created_at (Database.jobs db)
  /\ Database.config db' = Database.config db.
Proof. apply update_job_row_frame. Qed.

Lemma update_job_keeps_rows_witness :
  QueueManager.update_job Sample.job_claimed Sample.tie_store
  = Ok Sample.claimed_store
  /\ map Job.id (Database.jobs Sample.claimed_store)
     = map Job.id (Database.jobs Sample.tie_store)
  /\ map Job.created_at (Database.jobs Sample.claimed_store)
     = map Job.created_at (Database.jobs Sample.tie_store)
  /\ Database.config Sample.claimed_store = Database.config Sample.tie_store.
Proof.
  assert (QueueManager.update_job Sample.job_claimed Sample.tie_store
          = Ok Sample.claimed_store) as H by (vm_compute; reflexivity).
  split; [exact H|].
  exact (update_job_keeps_rows _ _ _ H).
Defined.





(** ** Claims against the store *)

Lemma set_columns_mark_processing {rt : Runtime} (now : datetime)
    (row : Job.t) :
  Database.set_columns (Job.mark_processing now row) row
  = Job.mark_processing now row.
Proof. now destruct row. Qed.

Lemma from_db_row_id {rt : Runtime} (env : Fresh) (r : Job.t) :
  truthy (Job.id r) = true -> Job.id (Job.from_db_row env r) = Job.id r.
Proof. intros H. unfold Job.from_db_row, Job.__init__. simpl. now rewrite H. Qed.

Lemma row_ok_id (r : Job.t) : row_ok r = true -> truthy (Job.id r) = true.
Proof. unfold row_ok. rewrite !andb_true_iff. tauto. Qed.

Section ClaimsAgainstStore.
Context {rt : Runtime}.

Lemma next_job_In (now : string) (db : Database.t) (row : Job.t) :
  Database.fetch_one (QueueManager.next_job_candidates now db) = Some row ->
  In row (Database.jobs db) /\ QueueManager.claimable now row = true.
Proof.
  intros H. unfold QueueManager.next_job_candidates in H.
  apply filter_In.
  apply (Permutation_in row
           (order_by_perm Database.le_priority_desc_created_asc _)).
  destruct (Database.order_by _ _) as [|x l]; [discriminate|].
  injection H as ->. now left.
Qed.

(** X9.  On a well-formed store without repeated ids, the job a claim
    returns is the row the store then holds under that id: it is
    [processing], its [started_at] and [updated_at] are the reading of the
    clock, and every other id reads as before the claim. *)
Theorem get_next_job_stores_claim (env : Fresh) (now now_p : datetime)
    (db db' : Database.t) (job : Job.t) :
  wf_store (Database.jobs db) = true ->
  unique_ids (Database.jobs db) ->
  QueueManager.get_next_job env now now_p db = Ok (Some job, db') ->
  lookup_job (Job.id job) db' = Some job
  /\ Job.state job = Job.processing
  /\ Job.started_at job = Some (isoformat now_p)
  /\ Job.updated_at job = isoformat now_p
  /\ (forall other, other <> Job.id job ->
        lookup_job other db' = lookup_job other db).
Proof.
  intros Hwf Hnd. unfold QueueManager.get_next_job.
  destruct (Database.fetch_one _) as [row|] eqn:Hrow; [|discriminate].
  destruct (next_job_In _ _ _ Hrow) as [Hin _].
  rewrite (from_db_row_ok env row (wf_store_In _ _ Hwf Hin)).
  destruct (QueueManager.update_job _ db) as [db1|] eqn:E; [|discriminate].
  intros [= <- <-].
  apply update_job_row_jobs in E. destruct E as [Hjobs _].
  repeat split.
  - unfold lookup_job. rewrite Hjobs.
    rewrite filter_update_same by reflexivity.
    rewrite fetch_one_map. simpl Job.id.
    rewrite (lookup_unique _ _ Hnd Hin). simpl.
    now rewrite set_columns_mark_processing.
  - intros other Hother. unfold lookup_job. rewrite Hjobs.
    now rewrite (filter_update_other _ other
                   (Database.set_columns (Job.mark_processing now_p row))
                   _ Hother (fun _ => eq_refl)).
Qed.

(** X10.  No double dispatch in a row: on a well-formed store, the job
    returned by a claim is not returned by the next claim, whatever the
    clock then reads. *)
Theorem successive_claims_differ (env env' : Fresh)
    (now now_p now' now_p' : datetime) (db db1 db2 : Database.t)
    (j1 j2 : Job.t) :
  wf_store (Database.jobs db) = true ->
  QueueManager.get_next_job env now now_p db = Ok (Some j1, db1) ->
  QueueManager.get_next_job env' now' now_p' db1 = Ok (Some j2, db2) ->
  Job.id j2 <> Job.id j1.
Proof.
  intros Hwf H1 H2. unfold QueueManager.get_next_job in H1, H2.
  destruct (Database.fetch_one (QueueManager.next_job_candidates _ db))
    as [row1|] eqn:Hrow1; [|discriminate].
  destruct (next_job_In _ _ _ Hrow1) as [Hin1 _].
  rewrite (from_db_row_ok env row1 (wf_store_In _ _ Hwf Hin1)) in H1.
  destruct (QueueManager.update_job _ db) as [d1|] eqn:E1; [|discriminate].
  injection H1 as <- <-.
  apply update_job_row_jobs in E1. destruct E1 as [Hjobs _].
  destruct (Database.fetch_one (QueueManager.next_job_candidates _ d1))
    as [row2|] eqn:Hrow2; [|discriminate].
  destruct (next_job_In _ _ _ Hrow2) as [Hin2 Hc2].
  destruct (QueueManager.update_job _ d1) as [d2|]; [|discriminate].
  injection H2 as <- _.
  change (Job.id (Job.from_db_row env' row2) <> Job.id row1).
  rewrite Hjobs in Hin2. apply in_map_iff in Hin2.
  destruct Hin2 as (r & Hr & Hrin).
  change (Job.id (Job.mark_processing now_p row1)) with (Job.id row1) in Hr.
  assert (Job.id row2 = Job.id r) as Hid.
  { rewrite <- Hr. now destruct (Database.has_id (Job.id row1) r). }
  rewrite from_db_row_id;
    [|rewrite Hid; exact (row_ok_id _ (wf_store_In _ _ Hwf Hrin))].
  intros Heq.
  assert (Database.has_id (Job.id row1) r = true) as Hhas.
  { apply has_id_true. congruence. }
  rewrite Hhas in Hr. subst row2.
  unfold QueueManager.claimable, QueueManager.is_state in Hc2.
  simpl in Hc2. discriminate.
Qed.

(** X11.  A turn of the worker loop, whatever the subprocess does, never
    adds, removes or reorders rows, never changes an [id] or a
    [created_at], and never touches [config]. *)
Theorem run_iteration_keeps_rows (env : Fresh) (now now_p : datetime)
    (clk : Worker.clocks) (o : Worker.run_outcome)
    (files : gmap string string) (db : Database.t) :
  let db' := snd (Worker.run_iteration env now now_p clk o files db) in
  map Job.id (Database.jobs db') = map Job.id (Database.jobs db)
  /\ map Job.created_at (Database.jobs db')
     = map Job.created_at (Database.jobs db)
  /\ Database.config db' = Database.config db.
Proof.
  unfold Worker.run_iteration, QueueManager.get_next_job.
  destruct (Database.fetch_one _) as [row|]; simpl; [|auto].
  destruct (QueueManager.update_job _ db) as [db1|] eqn:E1; simpl; [|auto].
  pose proof (update_job_row_frame _ _ _ E1) as (Hi & Hc & Hg).
  unfold Worker.process_job.
  destruct (QueueManager.save_job_output _ _ _ _ _) as [files'|]; simpl;
    [|auto].
  destruct (Worker.apply_result _ _ _ _) as [j1|]; simpl; [|auto].
  destruct (QueueManager.update_job j1 db1) as [db2|] eqn:E2; simpl; [|auto].
  pose proof (update_job_row_frame _ _ _ E2) as (Hi' & Hc' & Hg').
  repeat split; congruence.
Qed.

End ClaimsAgainstStore.

(** ** Outcomes of a processed job *)

Lemma update_job_lookup (job : Job.t) (db db' : Database.t) :
  QueueManager.update_job job db = Ok db' ->
  lookup_job (Job.id job) db'
  = option_map (Database.set_columns job) (lookup_job (Job.id job) db).
Proof.
  intros E. apply update_job_row_jobs in E. destruct E as [Hjobs _].
  unfold lookup_job. rewrite Hjobs.
  rewrite filter_update_same by reflexivity.
  apply fetch_one_map.
Qed.

Section Outcomes.
Context {rt : Runtime}.

Lemma mark_for_retry_fits (now_u now_r : datetime) (e : string) (B : Z)
    (j : Job.t) :
  (Job.attempts j + 1 < Job.max_retries j ->
   retry_time_fits now_r (B ^ (Job.attempts j + 1)) = true) ->
  exists j',
    Job.mark_for_retry now_u now_r e B j = Ok j'
    /\ if Job.attempts j + 1 <? Job.max_retries j
       then Job.state j' = Job.failed
            /\ Job.next_retry_at j'
               = Some (isoformat (now_r + 1000000 * B ^ (Job.attempts j + 1)))
       else Job.state j' = Job.dead /\ Job.next_retry_at j' = None.
Proof.
  unfold Job.mark_for_retry, Job.should_retry, Job.calculate_retry_delay,
    retry_time_fits.
  cbn [Job.attempts Job.max_retries Job.set_attempts Job.set_error_message
       Job.set_updated_at Job.set_state].
  destruct (Z.ltb_spec (Job.attempts j + 1) (Job.max_retries j)) as [Hlt|Hge];
    [|eexists; repeat split].
  intros Hfit. specialize (Hfit Hlt). rewrite !andb_true_iff in Hfit.
  destruct Hfit as [[[H1 H2] H3] H4].
  rewrite timedelta_seconds_spec, H1, H2. cbn [andb bind].
  unfold datetime_add, datetime_min, datetime_max. rewrite H3, H4.
  cbn [andb bind]. eexists. repeat split.
Qed.

Lemma execute_command_error (timeout : Z) (o : Worker.run_outcome) :
  Worker.success (Worker.execute_command timeout o) = false ->
  (if truthy (Worker.error (Worker.execute_command timeout o))
   then Worker.error (Worker.execute_command timeout o)
   else "Exit code: "
        +:+ py_str (Worker.return_code (Worker.execute_command timeout o)))
  = reported_error timeout o.
Proof.
  intros _. unfold truthy, reported_error.
  destruct o as [n out err| |m|n m]; cbn [Worker.execute_command Worker.error
    Worker.return_code].
  - now destruct (err =? "")%string.
  - reflexivity.
  - now destruct (m =? "")%string.
  - now destruct (m =? "")%string.
Qed.

(** X12.  When the subprocess does not succeed (non-zero exit, timeout,
    undecodable output or another exception), the log file of the job can
    be opened, [backoff_base] reads as an integer, the retry time, if one
    is due, is a time Python can hold, and the integer fields with the new
    attempt count are 64-bit, [process_job] stores the job with one more
    attempt and with the error message of the attempt: stderr, or the exit
    code when stderr is empty; the timeout notice; the text of the
    exception.  The job is [failed] and due [backoff_base ^ attempts]
    seconds after the clock reading when attempts are left, and [dead]
    without a retry time when none is; its [output], [completed_at] and
    [execution_time] are what they were. *)
Theorem process_job_failure (clk : Worker.clocks) (o : Worker.run_outcome)
    (job : Job.t) (files : gmap string string) (db : Database.t) (B : Z) :
  Worker.success (Worker.execute_command (Job.timeout job) o) = false ->
  log_file_error (Job.id job) = None ->
  Config.to_int (Config.get "backoff_base" (Some 2) db) = Ok B ->
  0 <= Job.attempts job ->
  (Job.attempts job + 1 < Job.max_retries job ->
   retry_time_fits (Worker.utcnow_retry clk) (B ^ (Job.attempts job + 1))
   = true) ->
  Job.command job <> None ->
  Database.bindable (Job.set_attempts (Job.attempts job + 1) job) = true ->
  exists job' db',
    snd (Worker.process_job clk o job files db) = Ok (job', db')
    /\ QueueManager.update_job job' db = Ok db'
    /\ Job.attempts job' = Job.attempts job + 1
    /\ Job.error_message job' = Some (reported_error (Job.timeout job) o)
    /\ (if Job.attempts job + 1 <? Job.max_retries job
        then Job.state job' = Job.failed
             /\ Job.next_retry_at job'
                = Some (isoformat
                          (Worker.utcnow_retry clk
                           + 1000000 * B ^ (Job.attempts job + 1)))
        else Job.state job' = Job.dead /\ Job.next_retry_at job' = None)
    /\ Job.output job' = Job.output job
    /\ Job.completed_at job' = Job.completed_at job
    /\ Job.execution_time job' = Job.execution_time job.
Proof.
  intros Hs Hl HB _ Hfit Hc Hb.
  unfold Worker.process_job, QueueManager.save_job_output.
  rewrite Hl. cbn [snd].
  unfold Worker.apply_result. rewrite Hs, HB. cbn [bind].
  rewrite (execute_command_error _ _ Hs).
  destruct (mark_for_retry_fits (Worker.utcnow_done clk)
              (Worker.utcnow_retry clk)
              (reported_error (Job.timeout job) o) B job Hfit)
    as (job' & E & Hst).
  rewrite E. cbn [bind].
  destruct (mark_for_retry_fields _ _ _ _ _ _ E)
    as ((_ & Hcmd & _ & Hm & Hp & Ht & _) & Ha & He & Ho & Hco & Het & _).
  destruct (update_job_total job' db) as [db' Hdb']; [congruence| |].
  { rewrite <- Hb. unfold Database.bindable. cbn [Job.attempts
      Job.max_retries Job.priority Job.timeout Job.set_attempts].
    now rewrite Ha, Hm, Hp, Ht. }
  exists job', db'. rewrite Hdb'. cbn [bind].
  repeat split; assumption.
Qed.

(** X13.  When the subprocess does not succeed, the log file of the job can
    be opened and the stored [backoff_base] does not read as an integer,
    [process_job] raises [ValueError] after it has written the log file,
    and the turn of the worker loop ends with the store as the claim left
    it: the job is not written back. *)
Theorem run_iteration_unreadable_backoff (env : Fresh) (now now_p : datetime)
    (clk : Worker.clocks) (o : Worker.run_outcome)
    (files : gmap string string) (db db1 : Database.t) (job : Job.t)
    (s : string) :
  QueueManager.get_next_job env now now_p db = Ok (Some job, db1) ->
  Worker.success (Worker.execute_command (Job.timeout job) o) = false ->
  log_file_error (Job.id job) = None ->
  Database.config db1 !! "backoff_base" = Some s ->
  py_int s = None ->
  snd (Worker.process_job clk o job files db1) = Raise ValueError
  /\ fst (Worker.process_job clk o job files db1) !! Job.id job <> None
  /\ snd (Worker.run_iteration env now now_p clk o files db) = db1.
Proof.
  intros Hg Hs Hl Hcfg Hint.
  assert (snd (Worker.process_job clk o job files db1) = Raise ValueError)
    as Hp.
  { unfold Worker.process_job, QueueManager.save_job_output.
    rewrite Hl. cbn [snd].
    unfold Worker.apply_result, Config.get, Config.to_int.
    now rewrite Hs, Hcfg, Hint. }
  split; [exact Hp|]. split.
  - unfold Worker.process_job, QueueManager.save_job_output.
    rewrite Hl. cbn [fst]. now rewrite lookup_insert_eq.
  - unfold Worker.run_iteration. rewrite Hg.
    destruct (Worker.process_job clk o job files db1) as [f r].
    simpl in Hp. now rewrite Hp.
Qed.

(** X14.  When the subprocess exits with code 0 and its output decodes as
    text, the log file of the job can be opened, [started_at] is unset or
    the text of a time without zone, and the integer fields are 64-bit, the
    [output] of the row stored under the id of the job is a prefix of the
    captured stdout of at most 500 characters, and the whole of it when
    stdout has no more than 500; the row keeps the [attempts],
    [error_message] and [next_retry_at] of the job, so a success after
    retries keeps the last error on record. *)
Theorem process_job_success_keeps (clk : Worker.clocks)
    (stdout stderr : string) (job row : Job.t) (files : gmap string string)
    (db : Database.t) :
  log_file_error (Job.id job) = None ->
  stamps_readable (Worker.utcnow_done clk) job ->
  Job.command job <> None ->
  Database.bindable job = true ->
  lookup_job (Job.id job) db = Some row ->
  exists job' db' row' out,
    snd (Worker.process_job clk (Worker.Exited 0 stdout stderr) job files db)
    = Ok (job', db')
    /\ lookup_job (Job.id job) db' = Some row'
    /\ Job.output job' = Some out
    /\ Job.output row' = Some out
    /\ String.prefix out stdout = true
    /\ (String.length out <= 500)%nat
    /\ ((String.length stdout <= 500)%nat -> out = stdout)
    /\ Job.attempts row' = Job.attempts job
    /\ Job.error_message row' = Job.error_message job
    /\ Job.next_retry_at row' = Job.next_retry_at job.
Proof.
  intros Hl Hr Hc Hb Hrow.
  unfold Worker.process_job, QueueManager.save_job_output.
  rewrite Hl. cbn [snd].
  unfold Worker.apply_result.
  cbn [Worker.execute_command Worker.success Worker.output Z.eqb].
  destruct (mark_completed_total (Worker.utcnow_done clk)
              (Some (take_chars 500 stdout)) job Hr)
    as (j1 & E & _ & _ & _ & Hid & _ & Hb1).
  rewrite E. cbn [bind].
  destruct (mark_completed_fields _ _ _ _ E)
    as ((_ & Hcmd & _) & _ & Ha & _ & _ & Hn & He & Ho).
  set (job' := Job.set_execution_time _ j1).
  destruct (update_job_total job' db) as [db' Hdb'].
  { subst job'. simpl. congruence. }
  { subst job'. rewrite <- Hb, <- Hb1. reflexivity. }
  pose proof (update_job_lookup _ _ _ Hdb') as Hlk.
  change (Job.id job') with (Job.id j1) in Hlk.
  rewrite Hid, Hrow in Hlk.
  exists job', db', (Database.set_columns job' row), (take_chars 500 stdout).
  rewrite Hdb'. cbn [bind].
  repeat split; try assumption.
  - apply take_chars_prefix.
  - rewrite take_chars_length. lia.
  - apply take_chars_all.
Qed.

End Outcomes.

(** ** The dead-letter queue, once more *)

Section DeadLetters.
Context {rt : Runtime}.

(** X15.  After a successful dead-letter retry the job is pending without a
    retry time, so the claim query selects it as soon as its [run_at], if
    any, has elapsed; and a second retry of the same id returns [False] and
    changes nothing. *)
Theorem retry_dlq_job_once (env env' : Fresh) (now now' : datetime)
    (job_id : string) (db db' : Database.t) :
  wf_store (Database.jobs db) = true ->
  QueueManager.retry_dlq_job env now job_id db = Ok (true, db') ->
  QueueManager.retry_dlq_job env' now' job_id db' = Ok (false, db')
  /\ exists row',
       lookup_job job_id db' = Some row'
       /\ forall t, QueueManager.claimable t row'
                    = Database.null_or_le (Job.run_at row') t.
Proof.
  intros Hwf. unfold QueueManager.retry_dlq_job at 1.
  unfold QueueManager.get_job.
  destruct (Database.fetch_one _) as [row|] eqn:Hrow; [|discriminate].
  destruct (fetch_one_filter_In _ _ _ Hrow) as [Hin Hid].
  rewrite (from_db_row_ok env row (wf_store_In _ _ Hwf Hin)).
  destruct (negb _); [discriminate|].
  set (job := Job.set_updated_at _ _).
  destruct (QueueManager.update_job job db) as [db1|] eqn:E; [|discriminate].
  intros [= <-].
  apply update_job_row_jobs in E. destruct E as [Hjobs _].
  assert (Job.id job = job_id) as Hjob by (now apply has_id_true in Hid).
  assert (lookup_job job_id db1 = Some (Database.set_columns job row)) as Hl.
  { unfold lookup_job. rewrite Hjobs, Hjob.
    rewrite filter_update_same by reflexivity.
    rewrite fetch_one_map. now rewrite Hrow. }
  split.
  - unfold QueueManager.retry_dlq_job, QueueManager.get_job.
    unfold lookup_job in Hl. now rewrite Hl.
  - eexists. split; [exact Hl|]. intros t. reflexivity.
Qed.

End DeadLetters.

(** ** Statistics *)

(** X17.  [priority_dist] maps each priority to the number of jobs that
    have it, and has no entry for a priority no job has. *)
Theorem priority_dist_counts (db : Database.t) (p : Z) :
  QueueManager.priority_dist (QueueManager.get_metrics db) !! p
  = match count_priority p (Database.jobs db) with
    | O => None
    | S n => Some (S n)
    end.
Proof.
  unfold QueueManager.get_metrics, count_priority. simpl.
  induction (Database.jobs db) as [|r rows IH]; simpl.
  - apply lookup_empty.
  - destruct (Z.eqb_spec (Job.priority r) p) as [->|Hne].
    + rewrite lookup_insert_eq, IH. simpl.
      now destruct (length _).
    + now rewrite lookup_insert_ne.
Qed.

(** ** Configuration *)

(** The first value bound to [key] in a list of pairs. *)
Lemma DEFAULTS_get_find (key : string) :
  Config.DEFAULTS_get key
  = option_map snd (find (fun kv => (fst kv =? key)%string) Config.DEFAULTS).
Proof. unfold Config.DEFAULTS_get. now destruct (find _ _). Qed.

Lemma init_defaults_fold (l : list (string * string)) (db : Database.t)
    (key : string) :
  Database.config
    (fold_left
       (fun db kv =>
          match Database.config db !! fst kv with
          | Some _ => db
          | None =>
              Database.with_config
                (<[fst kv := snd kv]> (Database.config db)) db
          end) l db) !! key
  = match Database.config db !! key with
    | Some v => Some v
    | None => option_map snd (find (fun kv => (fst kv =? key)%string) l)
    end.
Proof.
  revert db. induction l as [|kv l IH]; intros db; simpl.
  - now destruct (Database.config db !! key).
  - rewrite IH. destruct (String.eqb_spec (fst kv) key) as [<-|Hne].
    + destruct (Database.config db !! fst kv) as [v|] eqn:E.
      * now rewrite E.
      * simpl. now rewrite lookup_insert_eq.
    + destruct (Database.config db !! fst kv) as [v|] eqn:E; [reflexivity|].
      simpl. now rewrite lookup_insert_ne.
Qed.

Lemma init_defaults_lookup (db : Database.t) (key : string) :
  Database.config (Config._init_defaults db) !! key
  = match Database.config db !! key with
    | Some v => Some v
    | None => Config.DEFAULTS_get key
    end.
Proof.
  unfold Config._init_defaults. rewrite init_defaults_fold.
  now rewrite DEFAULTS_get_find.
Qed.

(** X18.  [_init_defaults] never overwrites a stored setting, gives each
    key of [DEFAULTS] that is missing its default, adds no other key,
    leaves the [jobs] table alone, and changes nothing when run again. *)
Theorem init_defaults_spec (db : Database.t) :
  (forall key,
      Database.config (Config._init_defaults db) !! key
      = match Database.config db !! key with
        | Some v => Some v
        | None => Config.DEFAULTS_get key
        end)
  /\ Database.jobs (Config._init_defaults db) = Database.jobs db
  /\ Config._init_defaults (Config._init_defaults db)
     = Config._init_defaults db.
Proof.
  split; [apply init_defaults_lookup|]. split; [apply init_defaults_jobs|].
  pose proof (init_defaults_jobs (Config._init_defaults db)) as Hj.
  assert (Database.config (Config._init_defaults (Config._init_defaults db))
          = Database.config (Config._init_defaults db)) as Hc.
  { apply map_eq. intros key. rewrite init_defaults_lookup.
    rewrite init_defaults_lookup.
    destruct (Database.config db !! key); [reflexivity|].
    now destruct (Config.DEFAULTS_get key). }
  destruct (Config._init_defaults (Config._init_defaults db)) as [j c].
  destruct (Config._init_defaults db) as [j' c']. simpl in *. congruence.
Qed.


(** X19.  [Config.set] then [Config.get] on the same key returns the text
    that was set, whatever default the caller passes; any other key reads as
    before, and the [jobs] table is untouched. *)
Theorem config_set_get (key value : string) (default : option Z)
    (db : Database.t) :
  Config.get key default (Config.set key value db) = Config.Text value
  /\ (forall other d, other <> key ->
        Config.get other d (Config.set key value db) = Config.get other d db)
  /\ Database.jobs (Config.set key value db) = Database.jobs db.
Proof.
  assert (Database.config (Config.set key value db)
          = <[key := value]> (Database.config db)) as Hc.
  { unfold Config.set. now destruct (Database.config db !! key). }
  split; [|split].
  - unfold Config.get. now rewrite Hc, lookup_insert_eq.
  - intros other d Hne. unfold Config.get.
    now rewrite Hc, lookup_insert_ne.
  - unfold Config.set. now destruct (Database.config db !! key).
Qed.

(** ** Commands *)



Section Commands.
Context {rt : Runtime}.





(** X21.  A JSON request whose job would carry an id that is already stored
    is never enqueued, and the [jobs] table is as before: the primary key is
    the only guard, and it holds for supplied ids and generated ones
    alike. *)
Theorem cli_enqueue_duplicate_id (env : Fresh) (data : Job.dict)
    (command job_id : option string) (max_retries : option Z)
    (priority timeout : Z) (run_at : option string) (db : Database.t)
    (r : Job.t) :
  In r (Database.jobs db) ->
  Job.id r = or_else (Job.get (Job.k_id data)) (uuid4 env) ->
  (forall job,
      fst (Cli.enqueue env (Some (Cli.Object data)) command job_id
             max_retries priority timeout run_at db) <> Cli.Enqueued job)
  /\ Database.jobs
       (snd (Cli.enqueue env (Some (Cli.Object data)) command job_id
               max_retries priority timeout run_at db))
     = Database.jobs db.
Proof.
  intros Hin Hid. unfold Cli.enqueue.
  destruct (Job.k_command data); [|split; [discriminate|reflexivity]].
  unfold Cli.enqueue_data.
  assert (forall d, Job.k_id d = Job.k_id data ->
            exists e, QueueManager.enqueue (Job.from_dict env d)
                        (Config._init_defaults db) = Raise e) as Hdup.
  { intros d Hd. unfold QueueManager.enqueue, Database.insert_job.
    assert (existsb (Database.has_id (Job.id (Job.from_dict env d)))
              (Database.jobs (Config._init_defaults db)) = true) as ->.
    { rewrite init_defaults_jobs. apply existsb_exists. exists r.
      split; [exact Hin|]. apply has_id_true.
      unfold Job.from_dict, Job.__init__. simpl. now rewrite Hd. }
    destruct (negb _); eauto. }
  destruct (Job.k_max_retries data).
  - destruct (Hdup data eq_refl) as [e ->]. simpl.
    split; [discriminate|apply init_defaults_jobs].
  - destruct (Config.to_int _) as [n|e]; cbn [bind].
    + destruct (Hdup (Cli.set_max_retries n data) eq_refl) as [e ->]. simpl.
      split; [discriminate|apply init_defaults_jobs].
    + simpl. split; [discriminate|apply init_defaults_jobs].
Qed.


End Commands.

(** ** The further properties on concrete data *)

Lemma from_dict_builds_round_trip_witness :
  Job.from_dict (rt := Sample.rt) (mkFresh "" 0 0)
    (Job.to_dict (Job.from_dict (rt := Sample.rt) Sample.env
                    Sample.empty_command))
  = Job.from_dict (rt := Sample.rt) Sample.env Sample.empty_command.
Proof.
  apply (from_dict_builds_round_trip (rt := Sample.rt)); reflexivity.
Defined.

Lemma history_keeps_identity_witness :
  same_identity Sample.job_a Sample.job_a_failed
  /\ Job.attempts Sample.job_a <= Job.attempts Sample.job_a_failed.
Proof.
  apply (history_keeps_identity (rt := Sample.rt)).
  apply (sample_run _ Sample.job_claimed); vm_compute; reflexivity.
Defined.

Lemma history_invariant_witness : history_inv Sample.job_zero_failed.
Proof.
  apply (history_invariant (rt := Sample.rt) Sample.job_zero).
  - repeat split.
  - apply (sample_run _ Sample.job_zero_claimed); vm_compute; reflexivity.
Defined.

Lemma sample_first_claim :
  QueueManager.get_next_job (rt := Sample.rt) Sample.env (Sample.at_second 5)
    (Sample.at_second 6) Sample.tie_store
  = Ok (Some Sample.job_b_claimed, Sample.tie_store_claimed).
Proof. vm_compute. reflexivity. Qed.

Lemma sample_second_claim :
  QueueManager.get_next_job (rt := Sample.rt) Sample.env (Sample.at_second 7)
    (Sample.at_second 8) Sample.tie_store_claimed
  = Ok (Some Sample.job_a_claimed, Sample.tie_store_claimed_twice).
Proof. vm_compute. reflexivity. Qed.

Lemma sample_unique_ids : unique_ids (Database.jobs Sample.tie_store).
Proof. repeat constructor; simpl; intuition discriminate. Qed.

Lemma get_next_job_stores_claim_witness :
  lookup_job (Job.id Sample.job_b_claimed) Sample.tie_store_claimed
  = Some Sample.job_b_claimed
  /\ Job.state Sample.job_b_claimed = Job.processing
  /\ Job.started_at Sample.job_b_claimed
     = Some (isoformat (Runtime := Sample.rt) (Sample.at_second 6))
  /\ Job.updated_at Sample.job_b_claimed
     = isoformat (Runtime := Sample.rt) (Sample.at_second 6)
  /\ (forall other, other <> Job.id Sample.job_b_claimed ->
        lookup_job other Sample.tie_store_claimed
        = lookup_job other Sample.tie_store).
Proof.
  exact (get_next_job_stores_claim (rt := Sample.rt) Sample.env
           (Sample.at_second 5) (Sample.at_second 6) Sample.tie_store
           Sample.tie_store_claimed Sample.job_b_claimed eq_refl
           sample_unique_ids sample_first_claim).
Defined.

Lemma successive_claims_differ_witness :
  Job.id Sample.job_a_claimed <> Job.id Sample.job_b_claimed.
Proof.
  exact (successive_claims_differ (rt := Sample.rt) Sample.env Sample.env
           (Sample.at_second 5) (Sample.at_second 6) (Sample.at_second 7)
           (Sample.at_second 8) Sample.tie_store Sample.tie_store_claimed
           Sample.tie_store_claimed_twice Sample.job_b_claimed
           Sample.job_a_claimed eq_refl sample_first_claim
           sample_second_claim).
Defined.

Lemma process_job_failure_witness :
  exists job' db',
    snd (Worker.process_job (rt := Sample.rt) Sample.clk
           (Worker.Exited 1 "" "") Sample.job_claimed ∅ Sample.claimed_store)
    = Ok (job', db')
    /\ QueueManager.update_job job' Sample.claimed_store = Ok db'
    /\ Job.attempts job' = Job.attempts Sample.job_claimed + 1
    /\ Job.error_message job'
       = Some (reported_error (Job.timeout Sample.job_claimed)
                 (Worker.Exited 1 "" ""))
    /\ (if Job.attempts Sample.job_claimed + 1
           <? Job.max_retries Sample.job_claimed
        then Job.state job' = Job.failed
             /\ Job.next_retry_at job'
                = Some (isoformat (Runtime := Sample.rt)
                          (Worker.utcnow_retry Sample.clk
                           + 1000000
                             * 2 ^ (Job.attempts Sample.job_claimed + 1)))
        else Job.state job' = Job.dead /\ Job.next_retry_at job' = None)
    /\ Job.output job' = Job.output Sample.job_claimed
    /\ Job.completed_at job' = Job.completed_at Sample.job_claimed
    /\ Job.execution_time job' = Job.execution_time Sample.job_claimed.
Proof.
  apply (process_job_failure (rt := Sample.rt) Sample.clk
           (Worker.Exited 1 "" "") Sample.job_claimed ∅ Sample.claimed_store
           2).
  - reflexivity.
  - reflexivity.
  - vm_compute. reflexivity.
  - vm_compute. discriminate.
  - intros _. vm_compute. reflexivity.
  - discriminate.
  - reflexivity.
Defined.

Lemma sample_odd_claim :
  QueueManager.get_next_job (rt := Sample.rt) Sample.env (Sample.at_second 5)
    (Sample.at_second 6) Sample.odd_store
  = Ok (Some Sample.job_b_claimed, Sample.odd_store_claimed).
Proof. vm_compute. reflexivity. Qed.

Lemma run_iteration_unreadable_backoff_witness :
  snd (Worker.process_job (rt := Sample.rt) Sample.clk Worker.TimeoutExpired
         Sample.job_b_claimed ∅ Sample.odd_store_claimed)
  = Raise ValueError
  /\ fst (Worker.process_job (rt := Sample.rt) Sample.clk
            Worker.TimeoutExpired Sample.job_b_claimed ∅
            Sample.odd_store_claimed) !! Job.id Sample.job_b_claimed <> None
  /\ snd (Worker.run_iteration (rt := Sample.rt) Sample.env
            (Sample.at_second 5) (Sample.at_second 6) Sample.clk
            Worker.TimeoutExpired ∅ Sample.odd_store)
     = Sample.odd_store_claimed.
Proof.
  apply (run_iteration_unreadable_backoff (rt := Sample.rt) Sample.env
           (Sample.at_second 5) (Sample.at_second 6) Sample.clk
           Worker.TimeoutExpired ∅ Sample.odd_store Sample.odd_store_claimed
           Sample.job_b_claimed "fast").
  - exact sample_odd_claim.
  - reflexivity.
  - reflexivity.
  - vm_compute. reflexivity.
  - vm_compute. reflexivity.
Defined.

Lemma process_job_success_keeps_witness :
  exists job' db' row' out,
    snd (Worker.process_job (rt := Sample.rt) Sample.clk
           (Worker.Exited 0 "hi" "") Sample.job_claimed ∅
           Sample.claimed_store)
    = Ok (job', db')
    /\ lookup_job (Job.id Sample.job_claimed) db' = Some row'
    /\ Job.output job' = Some out
    /\ Job.output row' = Some out
    /\ String.prefix out "hi" = true
    /\ (String.length out <= 500)%nat
    /\ ((String.length "hi" <= 500)%nat -> out = "hi")
    /\ Job.attempts row' = Job.attempts Sample.job_claimed
    /\ Job.error_message row' = Job.error_message Sample.job_claimed
    /\ Job.next_retry_at row' = Job.next_retry_at Sample.job_claimed.
Proof.
  apply (process_job_success_keeps (rt := Sample.rt) Sample.clk "hi" ""
           Sample.job_claimed Sample.job_claimed ∅ Sample.claimed_store).
  - reflexivity.
  - intros s [= <-] _. eexists _, _. split; vm_compute; reflexivity.
  - discriminate.
  - reflexivity.
  - vm_compute. reflexivity.
Defined.

Lemma sample_retry :
  QueueManager.retry_dlq_job (rt := Sample.rt) Sample.env (Sample.at_second 20)
    "d" Sample.mixed_store
  = Ok (true, Sample.mixed_store_retried).
Proof. vm_compute. reflexivity. Qed.

Lemma retry_dlq_job_once_witness :
  QueueManager.retry_dlq_job (rt := Sample.rt) Sample.env (Sample.at_second 30)
    "d" Sample.mixed_store_retried
  = Ok (false, Sample.mixed_store_retried)
  /\ exists row',
       lookup_job "d" Sample.mixed_store_retried = Some row'
       /\ forall t, QueueManager.claimable t row'
                    = Database.null_or_le (Job.run_at row') t.
Proof.
  exact (retry_dlq_job_once (rt := Sample.rt) Sample.env Sample.env
           (Sample.at_second 20) (Sample.at_second 30) "d" Sample.mixed_store
           Sample.mixed_store_retried eq_refl sample_retry).
Defined.


Lemma cli_enqueue_duplicate_id_witness :
  (forall job,
      fst (Cli.enqueue (rt := Sample.rt) Sample.env
             (Some (Cli.Object Sample.command_with_id_a)) None None None 0
             300 None Sample.tie_store) <> Cli.Enqueued job)
  /\ Database.jobs
       (snd (Cli.enqueue (rt := Sample.rt) Sample.env
               (Some (Cli.Object Sample.command_with_id_a)) None None None 0
               300 None Sample.tie_store))
     = Database.jobs Sample.tie_store.
Proof.
  apply (cli_enqueue_duplicate_id (rt := Sample.rt) Sample.env
           Sample.command_with_id_a None None None 0 300 None
           Sample.tie_store Sample.job_a).
  - right. left. reflexivity.
  - reflexivity.
Defined.

